(** * cni-basic: the IP pool and the command handlers, embedded in Rocq

    The development follows the two Go files of the plugin:
    - [pkg/ippool.go]: [IpPool], [NewIpPool], [AllocateIP], [ReleaseIP],
      [Save], [Load];
    - [main.go]: [validateEnvironment], [cmdAdd], [cmdVersion], [main].

    Go's [int] is kept as [Z] (no counter below leaves the 64-bit range), a
    [[]byte] is a [list Z] of values below 256, a [net.IP] is an optional
    byte list ([None] is the nil slice).  Library calls whose result depends
    on the machine (file system, netlink, standard output) are answered by
    an explicit environment that every theorem quantifies over. *)

From Stdlib Require Import ZArith String Ascii List Bool Lia.
From Stdlib Require DecimalString.
From stdpp Require Import base option list gmap strings.

Local Open Scope Z_scope.

(** ** Outcomes of Go code *)

(** A call either returns, or ends the process ([log.Fatalf], [os.Exit]),
    or panics (index out of range, nil dereference, bad slice bounds). *)
Inductive Outcome (A : Type) : Type :=
| Done (a : A)
| Exit (code : Z)
| Panic.
Arguments Done {A} a.
Arguments Exit {A} code.
Arguments Panic {A}.

(** Go's [(value, error)] pair when exactly one side is set. *)
Inductive Res (E A : Type) : Type :=
| Ok (a : A)
| Err (e : E).
Arguments Ok {E A} a.
Arguments Err {E A} e.

(** ** The part of package [net] the plugin calls

    Only the dotted-decimal IPv4 syntax is spelled out; text that Go would
    hand to its IPv6 parser (a [':'] before the first ['.']) is reported as
    unparsable here.  On a text without a colon ([no_colon]) the functions
    below answer as Go's do. *)
Module Net.

Definition IP : Type := option (list Z).

Definition code (c : ascii) : Z := Z.of_N (N_of_ascii c).

Definition is_digit (c : ascii) : bool := (48 <=? code c) && (code c <=? 57).

Definition digit (c : ascii) : Z := code c - 48.

Definition is_dot (c : ascii) : bool := code c =? 46.

(** [netip.parseIPv4Fields]: [fields] holds the octets closed so far,
    [first] tells that no byte was read yet, [prevdot] that the previous
    byte was a dot. *)
Fixpoint parseIPv4Fields (s : string) (first prevdot : bool)
    (val digLen : Z) (fields : list Z) : option (list Z) :=
  match s with
  | EmptyString =>
      if (Z.of_nat (List.length fields) <? 3) then None else Some (fields ++ [val])
  | String c rest =>
      if is_digit c then
        if (digLen =? 1) && (val =? 0) then None
        else
          let val' := val * 10 + digit c in
          if val' >? 255 then None
          else parseIPv4Fields rest false false val' (digLen + 1) fields
      else if is_dot c then
        if first || prevdot
           || match rest with EmptyString => true | _ => false end
        then None
        else if Z.of_nat (List.length fields) =? 3 then None
        else parseIPv4Fields rest false true 0 0 (fields ++ [val])
      else None
  end.

Definition parseIPv4 (s : string) : option (list Z) :=
  parseIPv4Fields s true false 0 0 [].

(** [netip.ParseAddr]: the first of ['.'], [':'], ['%'] picks the parser. *)
Fixpoint ParseAddr_from (whole s : string) : option (list Z) :=
  match s with
  | EmptyString => None
  | String c rest =>
      if is_dot c then parseIPv4 whole
      else if (code c =? 58) || (code c =? 37) then None
      else ParseAddr_from whole rest
  end.

Definition ParseAddr (s : string) : option (list Z) := ParseAddr_from s s.

(** No byte of [s] is a colon.  Such a text never reaches the IPv6 parser
    of [netip.ParseAddr], so the functions of this module give for it what
    Go gives. *)
Fixpoint no_colon (s : string) : bool :=
  match s with
  | EmptyString => true
  | String c rest => negb (code c =? 58) && no_colon rest
  end.

Definition v4InV6Prefix : list Z := [0;0;0;0;0;0;0;0;0;0;255;255].

(** [net.ParseIP]: the 16-byte form of the address, or nil. *)
Definition ParseIP (s : string) : IP :=
  match ParseAddr s with
  | Some v4 => Some (v4InV6Prefix ++ v4)
  | None => None
  end.

(** [IP.To4]. *)
Definition To4 (ip : IP) : IP :=
  match ip with
  | None => None
  | Some bs =>
      if Nat.eqb (List.length bs) 4 then Some bs
      else if Nat.eqb (List.length bs) 16
              && bool_decide (take 12 bs = v4InV6Prefix)
      then Some (drop 12 bs)
      else None
  end.

(** [net.dtoi]: the decimal prefix of [s], the number of bytes read, and
    whether a number in range was read. *)
Definition big : Z := 16777215.

Fixpoint dtoi_from (s : string) (n : Z) (i : nat) : Z * nat * bool :=
  match s with
  | String c rest =>
      if is_digit c then
        let n' := n * 10 + digit c in
        if n' >=? big then (big, i, false)
        else dtoi_from rest n' (S i)
      else if Nat.eqb i 0 then (0, 0%nat, false) else (n, i, true)
  | EmptyString => if Nat.eqb i 0 then (0, 0%nat, false) else (n, i, true)
  end.

Definition dtoi (s : string) : Z * nat * bool := dtoi_from s 0 0%nat.

(** [bytealg.IndexByteString s '/'], with the two halves around the hit. *)
Fixpoint cut_slash (s : string) : option (string * string) :=
  match s with
  | EmptyString => None
  | String c rest =>
      if code c =? 47 then Some (EmptyString, rest)
      else match cut_slash rest with
           | Some (a, m) => Some (String c a, m)
           | None => None
           end
  end.

Record IPMask := { mask_ones : Z; mask_bits : Z }.

Record IPNet := { net_IP : list Z; net_Mask : IPMask }.

(** [IPMask.Size] of a mask built by [CIDRMask]. *)
Definition Size (m : IPMask) : Z * Z := (mask_ones m, mask_bits m).

(** Byte [k] of [CIDRMask ones bits]. *)
Definition mask_byte (ones : Z) (k : nat) : Z :=
  let n := Z.min 8 (Z.max 0 (ones - 8 * Z.of_nat k)) in
  256 - Z.shiftl 1 (8 - n).

Definition apply_mask (ones : Z) (ip : list Z) : list Z :=
  imap (fun k b => Z.land b (mask_byte ones k)) ip.

(** [net.ParseCIDR]: the address and the network, or an error. *)
Definition ParseCIDR (s : string) : option (list Z * IPNet) :=
  match cut_slash s with
  | None => None
  | Some (addr, mask) =>
      match ParseAddr addr with
      | None => None
      | Some v4 =>
          let '(n, i, ok) := dtoi mask in
          if negb ok || negb (Nat.eqb i (String.length mask))
             || (n <? 0) || (n >? 32)
          then None
          else Some (v4InV6Prefix ++ v4,
                     {| net_IP := apply_mask n v4;
                        net_Mask := {| mask_ones := n; mask_bits := 32 |} |})
      end
  end.

End Net.

(** ** What [encoding/json] and [os] do for [Save] and [Load]

    A file is kept as the JSON object its text spells: the members in
    order, each a number or a string (the only shapes [Save] writes).  Text
    that is no JSON object is [Garbage].  Member names are matched exactly
    and strings are taken to be valid UTF-8, which [json.Marshal] writes
    back unchanged.  A [[]byte] travels as the base64 text of its bytes. *)
Inductive JValue : Type :=
| JNumber (z : Z)
| JString (s : string).

Inductive FileData : Type :=
| Garbage
| JObject (members : list (string * JValue)).

(** What the file system answers: whether a directory can be made, whether
    a file can be written, and the files that exist. *)
Record FS := {
  mkdir_ok : string -> bool;
  write_ok : string -> bool;
  files : gmap string FileData
}.

Module Base64.

(** The standard alphabet: [A-Z], [a-z], [0-9], [+], [/]. *)
Definition char_of (v : Z) : ascii :=
  ascii_of_N (Z.to_N
    (if v <? 26 then 65 + v
     else if v <? 52 then 71 + v
     else if v <? 62 then v - 4
     else if v =? 62 then 43 else 47)).

Definition value_of (c : ascii) : option Z :=
  let n := Net.code c in
  if (65 <=? n) && (n <=? 90) then Some (n - 65)
  else if (97 <=? n) && (n <=? 122) then Some (n - 71)
  else if (48 <=? n) && (n <=? 57) then Some (n + 4)
  else if n =? 43 then Some 62
  else if n =? 47 then Some 63
  else None.

Definition pad : ascii := ascii_of_N 61.

Definition is_pad (c : ascii) : bool := Net.code c =? 61.

Fixpoint encode (bs : list Z) : string :=
  match bs with
  | [] => EmptyString
  | [a] =>
      String (char_of (a / 4)) (String (char_of (a mod 4 * 16))
        (String pad (String pad EmptyString)))
  | [a; b] =>
      String (char_of (a / 4)) (String (char_of (a mod 4 * 16 + b / 16))
        (String (char_of (b mod 16 * 4)) (String pad EmptyString)))
  | a :: b :: c :: rest =>
      String (char_of (a / 4)) (String (char_of (a mod 4 * 16 + b / 16))
        (String (char_of (b mod 16 * 4 + c / 64))
          (String (char_of (c mod 64)) (encode rest))))
  end.

Definition is_empty (s : string) : bool :=
  match s with EmptyString => true | _ => false end.

(** Four characters give three bytes; padding is accepted in the last
    group only. *)
Fixpoint decode (s : string) : option (list Z) :=
  match s with
  | EmptyString => Some []
  | String c1 (String c2 (String c3 (String c4 rest))) =>
      match value_of c1, value_of c2 with
      | Some v1, Some v2 =>
          let b1 := (v1 * 4 + v2 / 16) mod 256 in
          if is_pad c3 then
            if is_pad c4 && is_empty rest then Some [b1] else None
          else
            match value_of c3 with
            | None => None
            | Some v3 =>
                let b2 := (v2 mod 16 * 16 + v3 / 4) mod 256 in
                if is_pad c4 then
                  if is_empty rest then Some [b1; b2] else None
                else
                  match value_of c4 with
                  | None => None
                  | Some v4 =>
                      let b3 := (v3 mod 4 * 64 + v4) mod 256 in
                      match decode rest with
                      | Some bs => Some (b1 :: b2 :: b3 :: bs)
                      | None => None
                      end
                  end
            end
      | _, _ => None
      end
  | _ => None
  end.

End Base64.

(** ** Valid UTF-8

    [encoding/json] writes a string as it is only where it is valid UTF-8
    (a byte that is not is replaced by U+FFFD). *)
Module Utf8.

(** The tables [first] and [acceptRanges] of [unicode/utf8]: for a leading
    byte, the length of the sequence and the range of its second byte. *)
Definition lead (b : Z) : option (nat * Z * Z) :=
  if b <? 194 then None
  else if b <=? 223 then Some (2%nat, 128, 191)
  else if b =? 224 then Some (3%nat, 160, 191)
  else if b =? 237 then Some (3%nat, 128, 159)
  else if b <=? 239 then Some (3%nat, 128, 191)
  else if b =? 240 then Some (4%nat, 144, 191)
  else if b <=? 243 then Some (4%nat, 128, 191)
  else if b =? 244 then Some (4%nat, 128, 143)
  else None.

Definition within (lo hi b : Z) : bool := (lo <=? b) && (b <=? hi).

(** A continuation byte, [locb] to [hicb]. *)
Definition cont (b : Z) : bool := within 128 191 b.

Fixpoint valid (bs : list Z) : bool :=
  match bs with
  | [] => true
  | b0 :: r0 =>
      if b0 <? 128 then valid r0
      else
        match lead b0, r0 with
        | Some (size, lo, hi), b1 :: r1 =>
            if negb (within lo hi b1) then false
            else if Nat.eqb size 2 then valid r1
            else
              match r1 with
              | b2 :: r2 =>
                  if negb (cont b2) then false
                  else if Nat.eqb size 3 then valid r2
                  else
                    match r2 with
                    | b3 :: r3 => cont b3 && valid r3
                    | [] => false
                    end
              | [] => false
              end
        | _, _ => false
        end
  end.

(** [utf8.ValidString]. *)
Definition ValidString (s : string) : bool :=
  valid (map Net.code (list_ascii_of_string s)).

End Utf8.

(** ** [pkg/ippool.go] *)
Module pkg.

Record IpPool := {
  PoolName : string;
  CidrRange : string;
  Path : string;
  Gateway : Z;
  TotalIps : Z;
  LastAllocatedIP : Z;
  Allocation : list Z
}.

(** [make([]byte, n)]: panics on a negative length; the loop that follows
    it in [NewIpPool] stores 0 over the zero bytes [make] returned. *)
Definition make_bytes (n : Z) : Outcome (list Z) :=
  if n <? 0 then Panic else Done (replicate (Z.to_nat n) 0).

(** [NewIpPool].  [size] is the prefix length of an IPv4 network, 32 at
    most, so [1<<uint(size)] stays within a 64-bit [int]. *)
Definition NewIpPool (fs : FS) (poolName cidrRange path : string)
  : Outcome IpPool :=
  if String.eqb poolName "" || String.eqb cidrRange "" || String.eqb path ""
  then Exit 1
  else
    match Net.ParseCIDR cidrRange with
    | None => Exit 1
    | Some (_, ipNet) =>
        if negb (mkdir_ok fs path) then Exit 1
        else
          let '(size, _) := Net.Size (Net.net_Mask ipNet) in
          let total := Z.shiftl 1 size - 3 in
          match make_bytes total with
          | Done bitmap =>
              Done {| PoolName := poolName; CidrRange := cidrRange;
                      Path := path; Gateway := 0; TotalIps := total;
                      LastAllocatedIP := 0; Allocation := bitmap |}
          | Exit c => Exit c
          | Panic => Panic
          end
    end.

Inductive AllocError : Type :=
| NoMoreIPs
| InvalidCIDR (cidr : string)
| NoAvailableIPs.

Inductive Scan : Type :=
| Found (i : Z)
| NotFound
| OutOfRange.

(** [for i := start; i >= 0; i--] over [n = start + 1] indices: the first
    free slot met going down from [n - 1]. *)
Fixpoint scan_down (a : list Z) (n : nat) : Scan :=
  match n with
  | O => NotFound
  | S i =>
      match a !! i with
      | None => OutOfRange
      | Some b => if b =? 0 then Found (Z.of_nat i) else scan_down a i
      end
  end.

(** [for i := start; i < TotalIps; i++], [fuel] being the number of
    indices left. *)
Fixpoint scan_up (a : list Z) (i : Z) (fuel : nat) : Scan :=
  match fuel with
  | O => NotFound
  | S fuel' =>
      if i <? 0 then OutOfRange
      else match a !! Z.to_nat i with
           | None => OutOfRange
           | Some b => if b =? 0 then Found i else scan_up a (i + 1) fuel'
           end
  end.

Definition set_slot (p : IpPool) (i v : Z) : IpPool :=
  {| PoolName := PoolName p; CidrRange := CidrRange p; Path := Path p;
     Gateway := Gateway p; TotalIps := TotalIps p;
     LastAllocatedIP := LastAllocatedIP p;
     Allocation := <[Z.to_nat i := v]> (Allocation p) |}.

Definition set_last (p : IpPool) (i : Z) : IpPool :=
  {| PoolName := PoolName p; CidrRange := CidrRange p; Path := Path p;
     Gateway := Gateway p; TotalIps := TotalIps p;
     LastAllocatedIP := i;
     Allocation := Allocation p |}.

(** [byte(i + 1)] and [ip[3] += ...]: both wrap at 256. *)
Definition add_host (ip : list Z) (i : Z) : list Z :=
  match ip !! 3%nat with
  | Some b => <[3%nat := (b + (i + 1) mod 256) mod 256]> ip
  | None => ip
  end.

(** The tail shared by both loops of [AllocateIP], after the slot is
    marked: [net.ParseIP(ipPool.CidrRange).To4()], then the host byte. *)
Definition address_of (cidr : string) (i : Z) : Res AllocError (list Z) :=
  match Net.To4 (Net.ParseIP cidr) with
  | None => Err (InvalidCIDR cidr)
  | Some ip => Ok (add_host ip i)
  end.

Definition AllocateIP (p : IpPool)
  : Outcome (Res AllocError (list Z)) * IpPool :=
  if LastAllocatedIP p >=? TotalIps p then (Done (Err NoMoreIPs), p)
  else
    match scan_down (Allocation p) (Z.to_nat (LastAllocatedIP p + 1)) with
    | OutOfRange => (Panic, p)
    | Found i => (Done (address_of (CidrRange p) i), set_slot p i 1)
    | NotFound =>
        match scan_up (Allocation p) (LastAllocatedIP p + 1)
                (Z.to_nat (TotalIps p - (LastAllocatedIP p + 1))) with
        | OutOfRange => (Panic, p)
        | Found i =>
            (Done (address_of (CidrRange p) i), set_last (set_slot p i 1) i)
        | NotFound => (Done (Err NoAvailableIPs), p)
        end
    end.

Inductive ReleaseError : Type :=
| NilIP
| NotIPv4
| OutOfPool
| NotAllocated.

(** The loop of [ReleaseIP]: going down from [n - 1], the first slot that
    holds 1. *)
Fixpoint walk_back (a : list Z) (n : nat) : Scan :=
  match n with
  | O => NotFound
  | S i =>
      match a !! i with
      | None => OutOfRange
      | Some b => if b =? 1 then Found (Z.of_nat i) else walk_back a i
      end
  end.

Definition ReleaseIP (p : IpPool) (ip : Net.IP)
  : Outcome (option ReleaseError) * IpPool :=
  match ip with
  | None => (Done (Some NilIP), p)
  | Some _ =>
      match Net.To4 ip with
      | None => (Done (Some NotIPv4), p)
      | Some ip4 =>
          match ip4 !! 3%nat with
          | None => (Panic, p)
          | Some b =>
              let index := b - 1 in
              if (index <? 0) || (index >=? TotalIps p)
              then (Done (Some OutOfPool), p)
              else
                match Allocation p !! Z.to_nat index with
                | None => (Panic, p)
                | Some v =>
                    if v =? 0 then (Done (Some NotAllocated), p)
                    else
                      let p1 := set_slot p index 0 in
                      if index =? LastAllocatedIP p1 then
                        match walk_back (Allocation p1)
                                (Z.to_nat (LastAllocatedIP p1 - 1 + 1)) with
                        | OutOfRange => (Panic, p1)
                        | Found i => (Done None, set_last p1 i)
                        | NotFound => (Done None, p1)
                        end
                      else (Done None, p1)
                end
          end
      end
  end.

(** [json.Marshal(ipPool)]: the exported fields under their tags, in
    declaration order; [gateway] and [allocation] carry [omitempty]. *)
Definition Marshal (p : IpPool) : list (string * JValue) :=
  [("pool_name", JString (PoolName p));
   ("cidr_range", JString (CidrRange p));
   ("path", JString (Path p))]
  ++ (if Gateway p =? 0 then [] else [("gateway", JNumber (Gateway p))])
  ++ [("total_ips", JNumber (TotalIps p));
      ("last_allocated_ip", JNumber (LastAllocatedIP p))]
  ++ (match Allocation p with
      | [] => []
      | _ => [("allocation", JString (Base64.encode (Allocation p)))]
      end).

Definition fits_int (z : Z) : bool :=
  (- 9223372036854775808 <=? z) && (z <=? 9223372036854775807).

(** One member of the object decoded into the pool.  A value of the wrong
    shape leaves the field as it was and is reported ([false]); a member the
    struct does not know is skipped. *)
Definition set_field (q : IpPool) (k : string) (v : JValue) : IpPool * bool :=
  let str (f : string -> IpPool) :=
    match v with JString s => (f s, true) | _ => (q, false) end in
  let int (f : Z -> IpPool) :=
    match v with
    | JNumber z => if fits_int z then (f z, true) else (q, false)
    | _ => (q, false)
    end in
  if String.eqb k "pool_name" then
    str (fun s => {| PoolName := s; CidrRange := CidrRange q; Path := Path q;
                     Gateway := Gateway q; TotalIps := TotalIps q;
                     LastAllocatedIP := LastAllocatedIP q;
                     Allocation := Allocation q |})
  else if String.eqb k "cidr_range" then
    str (fun s => {| PoolName := PoolName q; CidrRange := s; Path := Path q;
                     Gateway := Gateway q; TotalIps := TotalIps q;
                     LastAllocatedIP := LastAllocatedIP q;
                     Allocation := Allocation q |})
  else if String.eqb k "path" then
    str (fun s => {| PoolName := PoolName q; CidrRange := CidrRange q;
                     Path := s;
                     Gateway := Gateway q; TotalIps := TotalIps q;
                     LastAllocatedIP := LastAllocatedIP q;
                     Allocation := Allocation q |})
  else if String.eqb k "gateway" then
    int (fun z => {| PoolName := PoolName q; CidrRange := CidrRange q;
                     Path := Path q;
                     Gateway := z; TotalIps := TotalIps q;
                     LastAllocatedIP := LastAllocatedIP q;
                     Allocation := Allocation q |})
  else if String.eqb k "total_ips" then
    int (fun z => {| PoolName := PoolName q; CidrRange := CidrRange q;
                     Path := Path q;
                     Gateway := Gateway q; TotalIps := z;
                     LastAllocatedIP := LastAllocatedIP q;
                     Allocation := Allocation q |})
  else if String.eqb k "last_allocated_ip" then
    int (fun z => set_last q z)
  else if String.eqb k "allocation" then
    match v with
    | JString s =>
        match Base64.decode s with
        | Some bs =>
            ({| PoolName := PoolName q; CidrRange := CidrRange q;
                Path := Path q;
                Gateway := Gateway q; TotalIps := TotalIps q;
                LastAllocatedIP := LastAllocatedIP q;
                Allocation := bs |}, true)
        | None => (q, false)
        end
    | _ => (q, false)
    end
  else (q, true).

(** [json.Unmarshal(data, ipPool)] on an object: the members are decoded
    into the existing pool one after the other, fields without a member
    keep their value, and the call reports whether every member fitted. *)
Fixpoint Unmarshal (members : list (string * JValue)) (q : IpPool)
  : IpPool * bool :=
  match members with
  | [] => (q, true)
  | (k, v) :: rest =>
      let '(q1, ok1) := set_field q k v in
      let '(q2, ok2) := Unmarshal rest q1 in
      (q2, ok1 && ok2)
  end.

Inductive StoreError : Type :=
| WriteFailed
| ReadFailed
| UnmarshalFailed.

Definition pool_file (p : IpPool) : string :=
  Path p +:+ "/" +:+ PoolName p +:+ ".json".

Definition Save (p : IpPool) (fs : FS) : option StoreError * FS :=
  let data := JObject (Marshal p) in
  if write_ok fs (pool_file p) then
    (None, {| mkdir_ok := mkdir_ok fs; write_ok := write_ok fs;
              files := <[pool_file p := data]> (files fs) |})
  else (Some WriteFailed, fs).

Definition Load (p : IpPool) (fs : FS) : option StoreError * IpPool :=
  match files fs !! pool_file p with
  | None => (Some ReadFailed, p)
  | Some Garbage => (Some UnmarshalFailed, p)
  | Some (JObject members) =>
      let '(p', ok) := Unmarshal members p in
      if ok then (None, p') else (Some UnmarshalFailed, p')
  end.

(** *** The vocabulary of the pool's properties *)

(** Slot [i] of the bitmap, for a Go index. *)
Definition slot (p : IpPool) (i : Z) : option Z :=
  if i <? 0 then None else Allocation p !! Z.to_nat i.

(** The bitmap has [TotalIps] slots and the mark points into it. *)
Definition wf (p : IpPool) : Prop :=
  List.length (Allocation p) = Z.to_nat (TotalIps p) /\
  0 <= LastAllocatedIP p < TotalIps p.

(** Every slot holds 0 (free) or 1 (allocated). *)
Definition binary (p : IpPool) : Prop :=
  Forall (fun b => b = 0 \/ b = 1) (Allocation p).

(** The fields neither [AllocateIP] nor [ReleaseIP] writes. *)
Definition same_frame (p p' : IpPool) : Prop :=
  PoolName p' = PoolName p /\ CidrRange p' = CidrRange p /\
  Path p' = Path p /\ Gateway p' = Gateway p /\ TotalIps p' = TotalIps p.

(** The states a pool goes through once [NewIpPool] has built it. *)
Inductive reachable : IpPool -> Prop :=
| reach_new fs poolName cidrRange path p :
    NewIpPool fs poolName cidrRange path = Done p -> reachable p
| reach_allocate p :
    reachable p -> reachable (snd (AllocateIP p))
| reach_release p ip :
    reachable p -> reachable (snd (ReleaseIP p ip)).

(** A run of [n] calls of [AllocateIP]: the results in order, and the pool
    they leave. *)
Fixpoint allocate_n (n : nat) (p : IpPool)
  : list (Outcome (Res AllocError (list Z))) * IpPool :=
  match n with
  | O => ([], p)
  | S n' =>
      let '(r, p1) := AllocateIP p in
      let '(rs, p2) := allocate_n n' p1 in
      (r :: rs, p2)
  end.

Definition succeeded (r : Outcome (Res AllocError (list Z))) : bool :=
  match r with
  | Done (Ok _) => true
  | _ => false
  end.

(** The reading of the release rule that moves the mark to a value that is
    no index of the bitmap when nothing allocated is left below the
    released slot. *)
Definition mark_is_none (p : IpPool) : Prop :=
  ~ (0 <= LastAllocatedIP p < TotalIps p).

Definition release_resets_mark (p : IpPool) (ip : Net.IP) : Prop :=
  forall ip4 b p',
    Net.To4 ip = Some ip4 ->
    ip4 !! 3%nat = Some b ->
    b - 1 = LastAllocatedIP p ->
    (forall j, 0 <= j < b - 1 -> slot p j <> Some 1) ->
    ReleaseIP p ip = (Done None, p') ->
    mark_is_none p'.

(** *** Pools used in the worked cases *)

(** A file system that grants every request and holds no file. *)
Definition open_fs : FS :=
  {| mkdir_ok := fun _ => true; write_ok := fun _ => true; files := ∅ |}.

(** [NewIpPool("net", "10.0.0.0/3", "/var/lib/cni")] after three calls of
    [AllocateIP] and the release of 10.0.0.1 and 10.0.0.2. *)
Definition pool_top_only : IpPool :=
  {| PoolName := "net"; CidrRange := "10.0.0.0/3"; Path := "/var/lib/cni";
     Gateway := 0; TotalIps := 5; LastAllocatedIP := 2;
     Allocation := [0; 0; 1; 0; 0] |}.

(** The pool as [NewIpPool] returns it. *)
Definition pool_fresh : IpPool :=
  {| PoolName := "net"; CidrRange := "10.0.0.0/3"; Path := "/var/lib/cni";
     Gateway := 0; TotalIps := 5; LastAllocatedIP := 0;
     Allocation := [0; 0; 0; 0; 0] |}.

(** The same pool with slots 0 and 2 allocated, the mark on slot 2. *)
Definition pool_two_used : IpPool :=
  {| PoolName := "net"; CidrRange := "10.0.0.0/3"; Path := "/var/lib/cni";
     Gateway := 0; TotalIps := 5; LastAllocatedIP := 2;
     Allocation := [1; 0; 1; 0; 0] |}.

(** *** More vocabulary and pools for the properties beyond the claims *)

(** A pool whose [CidrRange] holds a plain address, as a struct literal or
    a file written by hand gives it. *)
Definition pool_plain : IpPool :=
  {| PoolName := "net"; CidrRange := "10.0.0.0"; Path := "/var/lib/cni";
     Gateway := 0; TotalIps := 5; LastAllocatedIP := 0;
     Allocation := [0; 0; 0; 0; 0] |}.

(** A pool with slots 0, 1 and 2 allocated and the mark on slot 2. *)
Definition pool_three_used : IpPool :=
  {| PoolName := "net"; CidrRange := "10.0.0.0/3"; Path := "/var/lib/cni";
     Gateway := 0; TotalIps := 5; LastAllocatedIP := 2;
     Allocation := [1; 1; 1; 0; 0] |}.

(** A pool object with no bitmap yet. *)
Definition pool_without_bitmap : IpPool :=
  {| PoolName := "net"; CidrRange := "10.0.0.0/3"; Path := "/var/lib/cni";
     Gateway := 0; TotalIps := 5; LastAllocatedIP := 0;
     Allocation := [] |}.

(** A pool with a gateway index set and two slots allocated. *)
Definition pool_with_gateway : IpPool :=
  {| PoolName := "net"; CidrRange := "10.0.0.0/3"; Path := "/var/lib/cni";
     Gateway := 7; TotalIps := 5; LastAllocatedIP := 1;
     Allocation := [1; 1; 0; 0; 0] |}.

(** No slot above the mark is allocated. *)
Definition above_mark_free (p : IpPool) : Prop :=
  forall j, LastAllocatedIP p < j -> slot p j <> Some 1.

(** The mark sits on an allocated slot, unless no slot at all is
    allocated. *)
Definition mark_in_use_or_empty (p : IpPool) : Prop :=
  slot p (LastAllocatedIP p) = Some 1 \/ forall j, slot p j <> Some 1.

(** The bitmap of an [n]-slot pool whose first [k] slots are allocated. *)
Definition filled (n k : nat) : list Z :=
  replicate k 1 ++ replicate (n - k) 0.

End pkg.

(** ** The part of [vishvananda/netlink] the plugin calls

    The kernel is not modelled: every call is answered by the environment,
    which sees the calls made so far, and is recorded with its answer. *)
Module Netlink.

Inductive LinkKind : Type :=
| Bridge
| Veth (PeerName : string)
| Device.

(** A [netlink.Link]: its concrete type and the attributes read here. *)
Record Link := {
  Kind : LinkKind;
  Name : string;
  MTU : Z;
  Index : Z;
  HardwareAddr : string
}.

(** A [netlink.Addr]: the address and its [net.CIDRMask(ones, bits)]. *)
Record Addr := {
  IP : Net.IP;
  Mask : Net.IPMask
}.

Inductive Op : Type :=
| LinkAdd (l : Link)
| LinkSetUp (l : Link)
| LinkSetNsPid (l : Link) (nspid : Z)
| LinkSetMaster (l : Link) (master : Link)
| AddrAdd (l : Link) (a : Addr).

(** [LinkByName] answers with a link or with an error, the other calls
    with an error or nil. *)
Inductive Event : Type :=
| Looked (name : string) (r : Res string Link)
| Called (op : Op) (err : option string).

End Netlink.

(** ** [main.go] *)
Module Main.

Import Netlink.

Definition DEFAULT_MTU : Z := 1500.

Record NetworkConfig := {
  CNIVersion : string;
  NetName : string;
  Bridge : string;
  Subnet : string;
  Gateway : string;
  MTU : Z;
  DNS : option (list string)
}.

Record CNIInterface := {
  if_Name : string;
  if_Mac : string;
  if_Sandbox : string
}.

Record CNIIP := {
  ip_Interface : Z;
  ip_Address : string;
  ip_Gateway : string
}.

Record CNIResult := {
  res_CNIVersion : string;
  Interfaces : list CNIInterface;
  IPs : list CNIIP;
  res_DNS : option (list string)
}.

Record VersionResult := {
  ver_CNIVersion : string;
  SupportedVersions : list string
}.

Record Environment := {
  Command : string;
  ContainerID : string;
  NetNS : string;
  IfName : string;
  Args : string;
  Path : string;
  PID : Z
}.

(** The errors of [validateEnvironment]. *)
Inductive EnvError : Type :=
| CommandNotSet
| ContainerIDNotSet
| NetNSNotSet
| IfNameNotSet.

(** The errors [cmdAdd] returns, one per [fmt.Errorf] of the function, with
    the values its message is built from; [EncodeFailed] is the error of
    the encoder on standard output. *)
Inductive AddError : Type :=
| GetBridgeFailed (bridge cause : string)
| CreateVethFailed (cause : string)
| MoveVethFailed (ifName netNS cause : string)
| GetPeerFailed (peer cause : string)
| SetMasterFailed (peer cause : string)
| SetUpVethFailed (ifName cause : string)
| SetUpPeerFailed (peer cause : string)
| ParseSubnetFailed (subnet : string)
| InvalidGatewayIP (gateway : string)
| AddGatewayFailed (gateway bridge cause : string)
| LoadPoolFailed (cause : pkg.StoreError)
| AllocateFailed (cause : pkg.AllocError)
| AddAddressFailed (subnet ifName cause : string)
| EncodeFailed.

Inductive Details : Type :=
| OfEnv (e : EnvError)
| OfConfig
| OfAdd (e : AddError)
| OfEncode
| NotSupported (command : string).

Record CNIError := {
  err_CNIVersion : string;
  Code : Z;
  Msg : string;
  err_Details : Details
}.

(** One JSON document written to standard output. *)
Inductive Output : Type :=
| OutResult (r : CNIResult)
| OutVersion (r : VersionResult)
| OutError (e : CNIError).

(** What the machine gives one invocation: the environment variables, the
    configuration decoded from standard input before defaults ([None] when
    the decoder fails), the answers of netlink, and whether standard output
    takes a write. *)
Record Host := {
  getenv : gmap string string;
  stdin : option NetworkConfig;
  link_by_name : list Event -> string -> Res string Link;
  net_op : list Event -> Op -> option string;
  stdout_ok : bool
}.

(** What one invocation changes. *)
Record St := {
  fs : FS;
  trace : list Event;
  stdout : list Output
}.

Definition M (A : Type) : Type := St -> Outcome A * St.

Definition ret {A} (a : A) : M A := fun s => (Done a, s).

Definition bind {A B} (m : M A) (f : A -> M B) : M B :=
  fun s =>
    match m s with
    | (Done a, s') => f a s'
    | (Exit c, s') => (Exit c, s')
    | (Panic, s') => (Panic, s')
    end.

Definition panic {A} : M A := fun s => (Panic, s).

Definition exit {A} (c : Z) : M A := fun s => (Exit c, s).

Declare Scope go_scope.
Delimit Scope go_scope with go.
Notation "x <- c1 ;; c2" := (bind c1 (fun x => c2))
  (at level 100, c1 at next level, right associativity) : go_scope.
Notation "c1 ;;; c2" := (bind c1 (fun _ => c2))
  (at level 100, right associativity) : go_scope.
Local Open Scope go_scope.

Section Invocation.

Variable h : Host.

Definition LinkByName (name : string) : M (Res string Link) :=
  fun s =>
    let r := link_by_name h (trace s) name in
    (Done r, {| fs := fs s; trace := trace s ++ [Looked name r];
                stdout := stdout s |}).

Definition call (op : Op) : M (option string) :=
  fun s =>
    let e := net_op h (trace s) op in
    (Done e, {| fs := fs s; trace := trace s ++ [Called op e];
                stdout := stdout s |}).

(** [json.NewEncoder(os.Stdout).Encode(v)]. *)
Definition Encode (o : Output) : M bool :=
  fun s =>
    if stdout_ok h then
      (Done true, {| fs := fs s; trace := trace s;
                     stdout := stdout s ++ [o] |})
    else (Done false, s).

Definition NewIpPool (poolName cidrRange path : string) : M pkg.IpPool :=
  fun s => (pkg.NewIpPool (fs s) poolName cidrRange path, s).

Definition Save (p : pkg.IpPool) : M (option pkg.StoreError) :=
  fun s =>
    let '(e, fs') := pkg.Save p (fs s) in
    (Done e, {| fs := fs'; trace := trace s; stdout := stdout s |}).

Definition Load (p : pkg.IpPool) : M (option pkg.StoreError * pkg.IpPool) :=
  fun s => (Done (pkg.Load p (fs s)), s).

Definition AllocateIP (p : pkg.IpPool)
  : M (Res pkg.AllocError (list Z) * pkg.IpPool) :=
  fun s =>
    match pkg.AllocateIP p with
    | (Done r, p') => (Done (r, p'), s)
    | (Exit c, _) => (Exit c, s)
    | (Panic, _) => (Panic, s)
    end.

Definition parseConfig : option NetworkConfig :=
  match stdin h with
  | None => None
  | Some config =>
      let bridge :=
        if String.eqb (Bridge config) "" then "cni0" else Bridge config in
      let mtu := if MTU config =? 0 then 1500 else MTU config in
      Some {| CNIVersion := CNIVersion config; NetName := NetName config;
              Bridge := bridge; Subnet := Subnet config;
              Gateway := Gateway config; MTU := mtu; DNS := DNS config |}
  end.

Definition Getenv (key : string) : string := default "" (getenv h !! key).

Definition getEnvironment : Environment :=
  {| Command := Getenv "CNI_COMMAND";
     ContainerID := Getenv "CNI_CONTAINERID";
     NetNS := Getenv "CNI_NETNS";
     IfName := Getenv "CNI_IFNAME";
     Args := Getenv "CNI_ARGS";
     Path := Getenv "CNI_PATH";
     PID := 0 |}.

Definition validateEnvironment (env : Environment) : option EnvError :=
  if String.eqb (Command env) "" then Some CommandNotSet
  else if negb (String.eqb (Command env) "VERSION") then
    if String.eqb (ContainerID env) "" then Some ContainerIDNotSet
    else if String.eqb (NetNS env) "" then Some NetNSNotSet
    else if String.eqb (IfName env) "" then Some IfNameNotSet
    else None
  else None.

Definition itoa (z : Z) : string :=
  DecimalString.NilZero.string_of_int (Z.to_int z).

(** [IP.String] of a 4-byte address. *)
Definition ip_String (ip : list Z) : string :=
  match ip with
  | [a; b; c; d] => itoa a +:+ "." +:+ itoa b +:+ "." +:+ itoa c +:+ "."
                    +:+ itoa d
  | _ => "?"
  end.

(** [containerID[:5]]. *)
Definition strip (containerID : string) : M string :=
  if (String.length containerID <? 5)%nat then panic
  else ret (substring 0 5 containerID).

Definition cmdAdd (config : NetworkConfig) (env : Environment)
  : M (option AddError) :=
  ipPool <- NewIpPool (Subnet config) (Gateway config) (Path env) ;;
  Save ipPool ;;;
  r <- LinkByName (Bridge config) ;;
  match r with
  | Err cause =>
      (* the block creating the bridge sits behind this return, under the
         same [err != nil], and is never run *)
      ret (Some (GetBridgeFailed (Bridge config) cause))
  | Ok bridge =>
  strippedID <- strip (ContainerID env) ;;
  let peer := "veth-" +:+ strippedID in
  let veth := {| Kind := Veth peer; Name := IfName env;
                 Netlink.MTU := MTU config; Index := 0;
                 HardwareAddr := "" |} in
  e <- call (LinkAdd veth) ;;
  match e with
  | Some cause => ret (Some (CreateVethFailed cause))
  | None =>
  r <- LinkByName (IfName env) ;;
  match r with
  | Err _ =>
      (* the error is dropped and [LinkSetNsPid] reads the nil link *)
      panic
  | Ok containerVeth =>
  e <- call (LinkSetNsPid containerVeth (PID env)) ;;
  match e with
  | Some cause => ret (Some (MoveVethFailed (IfName env) (NetNS env) cause))
  | None =>
  r <- LinkByName peer ;;
  match r with
  | Err cause => ret (Some (GetPeerFailed peer cause))
  | Ok peerVeth =>
  e <- call (LinkSetMaster peerVeth bridge) ;;
  match e with
  | Some cause => ret (Some (SetMasterFailed peer cause))
  | None =>
  e <- call (LinkSetUp containerVeth) ;;
  match e with
  | Some cause => ret (Some (SetUpVethFailed (IfName env) cause))
  | None =>
  e <- call (LinkSetUp peerVeth) ;;
  match e with
  | Some cause => ret (Some (SetUpPeerFailed peer cause))
  | None =>
  match Net.ParseCIDR (Subnet config) with
  | None => ret (Some (ParseSubnetFailed (Subnet config)))
  | Some (_, ipNetwork) =>
  match Net.ParseIP (Gateway config) with
  | None => ret (Some (InvalidGatewayIP (Gateway config)))
  | Some gatewayIP =>
  let '(ones, bits) := Net.Size (Net.net_Mask ipNetwork) in
  let mask := {| Net.mask_ones := ones; Net.mask_bits := bits |} in
  e <- call (AddrAdd bridge {| IP := Some gatewayIP; Mask := mask |}) ;;
  match e with
  | Some cause =>
      ret (Some (AddGatewayFailed (Gateway config) (Bridge config) cause))
  | None =>
  l <- Load ipPool ;;
  match l with
  | (Some cause, _) => ret (Some (LoadPoolFailed cause))
  | (None, ipPool) =>
  a <- AllocateIP ipPool ;;
  match a with
  | (Err cause, _) => ret (Some (AllocateFailed cause))
  | (Ok ip, _) =>
  e <- call (AddrAdd containerVeth {| IP := Some ip; Mask := mask |}) ;;
  match e with
  | Some cause =>
      ret (Some (AddAddressFailed (Subnet config) (IfName env) cause))
  | None =>
  let result :=
    {| res_CNIVersion := CNIVersion config;
       Interfaces :=
         [ {| if_Name := Bridge config; if_Mac := HardwareAddr bridge;
              if_Sandbox := "" |};
           {| if_Name := IfName env; if_Mac := HardwareAddr containerVeth;
              if_Sandbox := NetNS env |} ];
       IPs := [ {| ip_Interface := 1;
                   ip_Address := ip_String ip +:+ "/" +:+ itoa ones;
                   ip_Gateway := Gateway config |} ];
       res_DNS := Some ["8.8.8.8"; "1.1.1.1"] |} in
  ok <- Encode (OutResult result) ;;
  ret (if ok then None else Some EncodeFailed)
  end end end end end end end end end end end end end end.

Definition cmdDel (config : NetworkConfig) (env : Environment)
  : M (option AddError) :=
  ret None.

Definition cmdCheck (config : NetworkConfig) (env : Environment)
  : M (option AddError) :=
  let result :=
    {| res_CNIVersion := CNIVersion config;
       Interfaces :=
         [ {| if_Name := IfName env; if_Mac := "00:11:22:33:44:55";
              if_Sandbox := NetNS env |} ];
       IPs := [ {| ip_Interface := 0; ip_Address := "10.0.0.10/24";
                   ip_Gateway := "10.0.0.1" |} ];
       res_DNS := None |} in
  ok <- Encode (OutResult result) ;;
  ret (if ok then None else Some EncodeFailed).

Definition cmdVersion : M bool :=
  Encode (OutVersion {| ver_CNIVersion := "1.1.0";
                        SupportedVersions := ["0.4.0"; "1.0.0"; "1.1.0"] |}).

Definition sendError (code : Z) (msg : string) (details : Details)
    (cniVersion : string) : M unit :=
  let cniVersion :=
    if String.eqb cniVersion "" then "1.1.0" else cniVersion in
  Encode (OutError {| err_CNIVersion := cniVersion; Code := code;
                      Msg := msg; err_Details := details |}) ;;;
  ret tt.

Definition main : M unit :=
  let env := getEnvironment in
  match validateEnvironment env with
  | Some err =>
      sendError 4 "Invalid environment variables" (OfEnv err) "" ;;; exit 1
  | None =>
  if String.eqb (Command env) "VERSION" then
    ok <- cmdVersion ;;
    if ok then ret tt
    else sendError 1 "Failed to get version" OfEncode "" ;;; exit 1
  else
  match parseConfig with
  | None => sendError 7 "Invalid network configuration" OfConfig "" ;;; exit 1
  | Some config =>
  let handle (msg : string) (r : option AddError) : M unit :=
    match r with
    | Some err => sendError 7 msg (OfAdd err) (CNIVersion config) ;;; exit 1
    | None => ret tt
    end in
  if String.eqb (Command env) "ADD" then
    r <- cmdAdd config env ;; handle "Failed to add network" r
  else if String.eqb (Command env) "DEL" then
    r <- cmdDel config env ;; handle "Failed to delete network" r
  else if String.eqb (Command env) "CHECK" then
    r <- cmdCheck config env ;; handle "Network check failed" r
  else
    sendError 4 "Unknown command" (NotSupported (Command env))
      (CNIVersion config) ;;; exit 1
  end end.

(** The exit status of the process. *)
Definition status (o : Outcome unit) : Z :=
  match o with
  | Done _ => 0
  | Exit c => c
  | Panic => 2
  end.

End Invocation.

(** *** The vocabulary of the handlers' properties *)

(** The netlink calls [cmdAdd] made, in order. *)
Definition performed (h : Host) (config : NetworkConfig) (env : Environment)
    (s : St) : list Event :=
  drop (List.length (trace s)) (trace (snd (cmdAdd h config env s))).

(** Every event of [tr] that satisfies [Q] has an event that satisfies [P]
    strictly before it. *)
Definition before (tr : list Event) (P Q : Event -> Prop) : Prop :=
  forall i e, tr !! i = Some e -> Q e ->
    exists j e', (j < i)%nat /\ tr !! j = Some e' /\ P e'.

Definition assigns_address (e : Event) : Prop :=
  exists l a r, e = Called (AddrAdd l a) r.

Definition brings_up (e : Event) : Prop :=
  exists l r, e = Called (LinkSetUp l) r.

Definition creates_bridge (e : Event) : Prop :=
  exists l r, e = Called (LinkAdd l) r /\ Kind l = Netlink.Bridge.

(** The host-side name of the pair. *)
Definition peer_name (env : Environment) : string :=
  "veth-" +:+ substring 0 5 (ContainerID env).

(** *** Hosts used in the worked cases *)

Definition add_vars : gmap string string :=
  {[ "CNI_COMMAND" := "ADD"; "CNI_CONTAINERID" := "abcdef123";
     "CNI_NETNS" := "/var/run/netns/c1"; "CNI_IFNAME" := "eth0";
     "CNI_PATH" := "/opt/cni/bin" ]}.

Definition add_env : Environment :=
  {| Command := "ADD"; ContainerID := "abcdef123";
     NetNS := "/var/run/netns/c1"; IfName := "eth0"; Args := "";
     Path := "/opt/cni/bin"; PID := 0 |}.

(** The configuration of the README, on a /8; [NewIpPool] takes the
    gateway for its CIDR range, so the gateway is written as one here. *)
Definition config_slash8 : NetworkConfig :=
  {| CNIVersion := "1.1.0"; NetName := "basic-network"; Bridge := "cni0";
     Subnet := "10.0.0.0/8"; Gateway := "10.0.0.1/8"; MTU := 1500;
     DNS := None |}.

(** The configuration of the README as it stands. *)
Definition config_readme : NetworkConfig :=
  {| CNIVersion := "1.1.0"; NetName := "basic-network"; Bridge := "cni0";
     Subnet := "10.0.0.0/24"; Gateway := "10.0.0.1"; MTU := 1500;
     DNS := None |}.

Definition link_named (name : string) : Link :=
  {| Kind := Device; Name := name; Netlink.MTU := 1500; Index := 7;
     HardwareAddr := "02:42:0a:00:00:07" |}.

(** Every link asked for exists and every call succeeds. *)
Definition willing_host : Host :=
  {| getenv := add_vars; stdin := Some config_slash8;
     link_by_name := fun _ name => Ok (link_named name);
     net_op := fun _ _ => None;
     stdout_ok := true |}.

(** The same host without a link called cni0. *)
Definition host_without_bridge : Host :=
  {| getenv := add_vars; stdin := Some config_slash8;
     link_by_name := fun _ name =>
       if String.eqb name "cni0" then Err "Link not found"
       else Ok (link_named name);
     net_op := fun _ _ => None;
     stdout_ok := true |}.

(** The same host, refusing the move into the namespace. *)
Definition host_refusing_move : Host :=
  {| getenv := add_vars; stdin := Some config_slash8;
     link_by_name := fun _ name => Ok (link_named name);
     net_op := fun _ op =>
       match op with
       | LinkSetNsPid _ _ => Some "no such process"
       | _ => None
       end;
     stdout_ok := true |}.

(** The same host, on which the container end of the pair is not found
    once the pair is made. *)
Definition host_losing_link : Host :=
  {| getenv := add_vars; stdin := Some config_slash8;
     link_by_name := fun _ name =>
       if String.eqb name "eth0" then Err "Link not found"
       else Ok (link_named name);
     net_op := fun _ _ => None;
     stdout_ok := true |}.

(** A host that knows the bridge and no other link. *)
Definition host_only_bridge : Host :=
  {| getenv := add_vars; stdin := Some config_slash8;
     link_by_name := fun _ name =>
       if String.eqb name "cni0" then Ok (link_named name)
       else Err "no such device";
     net_op := fun _ _ => None;
     stdout_ok := true |}.

(** A host that sets nothing but the command. *)
Definition version_host : Host :=
  {| getenv := {[ "CNI_COMMAND" := "VERSION" ]}; stdin := None;
     link_by_name := fun _ _ => Err "Link not found";
     net_op := fun _ _ => Some "operation not permitted";
     stdout_ok := true |}.

Definition start : St :=
  {| fs := pkg.open_fs; trace := []; stdout := [] |}.

(** *** More hosts for the properties beyond the claims *)

(** A host that sets the four variables of a command and answers every
    netlink call with success. *)
Definition host_for (command containerID : string)
    (config : option NetworkConfig) : Host :=
  {| getenv := {[ "CNI_COMMAND" := command;
                  "CNI_CONTAINERID" := containerID;
                  "CNI_NETNS" := "/var/run/netns/c1";
                  "CNI_IFNAME" := "eth0";
                  "CNI_PATH" := "/opt/cni/bin" ]};
     stdin := config;
     link_by_name := fun _ name => Ok (link_named name);
     net_op := fun _ _ => None;
     stdout_ok := true |}.

(** A host that sets the command and nothing else. *)
Definition host_command_only (command : string) : Host :=
  {| getenv := {[ "CNI_COMMAND" := command ]};
     stdin := Some config_readme;
     link_by_name := fun _ name => Ok (link_named name);
     net_op := fun _ _ => None;
     stdout_ok := true |}.

(** A configuration that names neither bridge nor MTU. *)
Definition config_bare : NetworkConfig :=
  {| CNIVersion := "1.0.0"; NetName := "basic-network"; Bridge := "";
     Subnet := "10.0.0.0/24"; Gateway := "10.0.0.1"; MTU := 0;
     DNS := None |}.

(** An environment whose container identifier has three bytes. *)
Definition short_id_env : Environment :=
  {| Command := "ADD"; ContainerID := "abc";
     NetNS := "/var/run/netns/c1"; IfName := "eth0"; Args := "";
     Path := "/opt/cni/bin"; PID := 0 |}.

(** The documents [main] wrote. *)
Definition written (h : Host) (s : St) : list Output :=
  drop (List.length (stdout s)) (stdout (snd (main h s))).

(** The pair the container end belongs to, as [cmdAdd] describes it. *)
Definition veth_pair (config : NetworkConfig) (env : Environment) : Link :=
  {| Kind := Veth ("veth-" +:+ substring 0 5 (ContainerID env));
     Name := IfName env; Netlink.MTU := MTU config; Index := 0;
     HardwareAddr := "" |}.

(** The three variables every command but VERSION needs are set. *)
Definition env_complete (h : Host) : Prop :=
  ContainerID (getEnvironment h) <> "" /\
  NetNS (getEnvironment h) <> "" /\
  IfName (getEnvironment h) <> "".

(** The command is unset, or it is not VERSION and one of the three
    variables is unset. *)
Definition env_refused (h : Host) : Prop :=
  Command (getEnvironment h) = "" \/
  (Command (getEnvironment h) <> "VERSION" /\
   (ContainerID (getEnvironment h) = "" \/
    NetNS (getEnvironment h) = "" \/
    IfName (getEnvironment h) = "")).

(** The error document [sendError] writes. *)
Definition error_document (code : Z) (msg : string) (details : Details)
    (version : string) : Output :=
  OutError {| err_CNIVersion :=
                if String.eqb version "" then "1.1.0" else version;
              Code := code; Msg := msg; err_Details := details |}.

(** The error documents an ADD can end with: the environment refused,
    the configuration not decoded, or the error [cmdAdd] returned. *)
Definition add_error_document (h : Host) (s : St) (o : Output) : Prop :=
  (exists e, validateEnvironment (getEnvironment h) = Some e /\
     o = error_document 4 "Invalid environment variables" (OfEnv e) "") \/
  (parseConfig h = None /\
   o = error_document 7 "Invalid network configuration" OfConfig "") \/
  (exists config e,
     parseConfig h = Some config /\
     fst (cmdAdd h config (getEnvironment h) s) = Done (Some e) /\
     o = error_document 7 "Failed to add network" (OfAdd e)
           (CNIVersion config)).

(** The state after one more document on standard output. *)
Definition wrote (s : St) (o : Output) : St :=
  {| fs := fs s; trace := trace s; stdout := stdout s ++ [o] |}.

End Main.

(** * Facts about the parsers *)

Lemma slash_not_digit c : Net.code c = 47 -> Net.is_digit c = false.
Proof. unfold Net.is_digit. intros ->. reflexivity. Qed.

Lemma slash_not_dot c : Net.code c = 47 -> Net.is_dot c = false.
Proof. unfold Net.is_dot. intros ->. reflexivity. Qed.

Lemma parseIPv4Fields_slash s :
  Net.cut_slash s <> None ->
  forall first prevdot val digLen fields,
    Net.parseIPv4Fields s first prevdot val digLen fields = None.
Proof.
  induction s as [|c rest IH]; simpl; intros Hs first prevdot val digLen fields.
  - congruence.
  - destruct (Net.code c =? 47) eqn:Hc.
    + apply Z.eqb_eq in Hc.
      rewrite (slash_not_digit c Hc), (slash_not_dot c Hc). reflexivity.
    + assert (Hrest : Net.cut_slash rest <> None).
      { destruct (Net.cut_slash rest); congruence. }
      repeat match goal with
             | |- context [if ?b then _ else _] => destruct b
             end; auto.
Qed.

Lemma ParseAddr_slash s : Net.cut_slash s <> None -> Net.ParseAddr s = None.
Proof.
  intros Hs. unfold Net.ParseAddr. generalize s at 2.
  induction s0 as [|c rest IH]; simpl; [reflexivity|].
  destruct (Net.is_dot c).
  - apply parseIPv4Fields_slash, Hs.
  - destruct (_ || _); auto.
Qed.

Lemma ParseIP_slash s : Net.cut_slash s <> None -> Net.ParseIP s = None.
Proof. intros Hs. unfold Net.ParseIP. rewrite ParseAddr_slash; auto. Qed.

Lemma ParseCIDR_slash s x : Net.ParseCIDR s = Some x -> Net.cut_slash s <> None.
Proof. unfold Net.ParseCIDR. destruct (Net.cut_slash s); congruence. Qed.

(** A string that [ParseCIDR] accepts is never accepted by [ParseIP]. *)
Lemma ParseIP_of_CIDR s x : Net.ParseCIDR s = Some x -> Net.ParseIP s = None.
Proof. intros H. eapply ParseIP_slash, ParseCIDR_slash, H. Qed.

Lemma ParseCIDR_ones s a n :
  Net.ParseCIDR s = Some (a, n) ->
  0 <= Net.mask_ones (Net.net_Mask n) <= 32.
Proof.
  unfold Net.ParseCIDR.
  destruct (Net.cut_slash s) as [[addr mask]|]; [|congruence].
  destruct (Net.ParseAddr addr); [|congruence].
  destruct (Net.dtoi mask) as [[k i] ok].
  destruct (_ || _) eqn:Hchk; [congruence|].
  intros [= <- <-]. simpl.
  apply orb_false_iff in Hchk as [Hchk Hgt].
  apply orb_false_iff in Hchk as [_ Hlt].
  lia.
Qed.

Import pkg.

Lemma NewIpPool_Done fs name cidr path p :
  NewIpPool fs name cidr path = Done p ->
  exists addr n,
    Net.ParseCIDR cidr = Some (addr, n) /\
    2 <= Net.mask_ones (Net.net_Mask n) <= 32 /\
    p = {| PoolName := name; CidrRange := cidr; Path := path; Gateway := 0;
           TotalIps := 2 ^ Net.mask_ones (Net.net_Mask n) - 3;
           LastAllocatedIP := 0;
           Allocation :=
             replicate (Z.to_nat (2 ^ Net.mask_ones (Net.net_Mask n) - 3)) 0 |}.
Proof.
  unfold NewIpPool.
  destruct (_ || _); [discriminate|].
  destruct (Net.ParseCIDR cidr) as [[addr n]|] eqn:Hc; [|discriminate].
  destruct (negb _); [discriminate|].
  pose proof (ParseCIDR_ones _ _ _ Hc) as Hones.
  unfold Net.Size, make_bytes.
  set (k := Net.mask_ones (Net.net_Mask n)) in *.
  rewrite Z.shiftl_1_l.
  destruct (2 ^ k - 3 <? 0) eqn:Hneg; [discriminate|].
  intros [= <-]. exists addr, n. split; [reflexivity|]. split; [|reflexivity].
  apply Z.ltb_ge in Hneg.
  destruct (Z.eq_dec k 0) as [->|]; [simpl in Hneg; lia|].
  destruct (Z.eq_dec k 1) as [->|]; [simpl in Hneg; lia|]. lia.
Qed.

(** * Facts about the scans *)

Lemma scan_down_Found a n i :
  scan_down a n = Found i ->
  0 <= i < Z.of_nat n /\ a !! Z.to_nat i = Some 0 /\
  forall j, i < j < Z.of_nat n -> a !! Z.to_nat j <> Some 0.
Proof.
  induction n as [|n IH]; simpl; [discriminate|].
  destruct (a !! n) as [b|] eqn:Hn; [|discriminate].
  destruct (b =? 0) eqn:Hb.
  - intros [= <-]. apply Z.eqb_eq in Hb as ->.
    rewrite Nat2Z.id. repeat split; try lia; auto.
  - intros H. destruct (IH H) as (Hi & Hfree & Hmax).
    repeat split; try lia; auto.
    intros j Hj. destruct (Z.eq_dec j (Z.of_nat n)) as [->|Hne].
    + rewrite Nat2Z.id, Hn. intros [= ->]. discriminate.
    + apply Hmax. lia.
Qed.

Lemma scan_down_NotFound a n :
  scan_down a n = NotFound ->
  forall j, 0 <= j < Z.of_nat n -> a !! Z.to_nat j <> Some 0.
Proof.
  induction n as [|n IH]; simpl; [intros; lia|].
  destruct (a !! n) as [b|] eqn:Hn; [|discriminate].
  destruct (b =? 0) eqn:Hb; [discriminate|].
  intros H j Hj. destruct (Z.eq_dec j (Z.of_nat n)) as [->|Hne].
  - rewrite Nat2Z.id, Hn. intros [= ->]. discriminate.
  - apply IH; [assumption|lia].
Qed.

Lemma scan_down_in_range a n :
  (n <= List.length a)%nat -> scan_down a n <> OutOfRange.
Proof.
  induction n as [|n IH]; simpl; [discriminate|]. intros Hn.
  destruct (a !! n) as [b|] eqn:Hl.
  - destruct (b =? 0); [discriminate|]. apply IH. lia.
  - apply lookup_ge_None in Hl. lia.
Qed.

Lemma scan_up_Found a fuel : forall i k,
  scan_up a i fuel = Found k ->
  i <= k < i + Z.of_nat fuel /\ a !! Z.to_nat k = Some 0 /\
  forall j, i <= j < k -> a !! Z.to_nat j <> Some 0.
Proof.
  induction fuel as [|fuel IH]; simpl; intros i k; [discriminate|].
  destruct (i <? 0); [discriminate|].
  destruct (a !! Z.to_nat i) as [b|] eqn:Hi; [|discriminate].
  destruct (b =? 0) eqn:Hb.
  - intros [= <-]. apply Z.eqb_eq in Hb as ->.
    repeat split; try lia; auto.
  - intros H. destruct (IH _ _ H) as (Hk & Hfree & Hmin).
    repeat split; try lia; auto.
    intros j Hj. destruct (Z.eq_dec j i) as [->|Hne].
    + rewrite Hi. intros [= ->]. discriminate.
    + apply Hmin. lia.
Qed.

Lemma scan_up_start a fuel i k : scan_up a i fuel = Found k -> 0 <= i.
Proof.
  destruct fuel; simpl; [discriminate|].
  destruct (i <? 0) eqn:Hneg; [discriminate|]. lia.
Qed.

Lemma scan_up_NotFound a fuel : forall i,
  scan_up a i fuel = NotFound ->
  forall j, i <= j < i + Z.of_nat fuel -> a !! Z.to_nat j <> Some 0.
Proof.
  induction fuel as [|fuel IH]; simpl; intros i; [intros; lia|].
  destruct (i <? 0); [discriminate|].
  destruct (a !! Z.to_nat i) as [b|] eqn:Hi; [|discriminate].
  destruct (b =? 0) eqn:Hb; [discriminate|].
  intros H j Hj. destruct (Z.eq_dec j i) as [->|Hne].
  - rewrite Hi. intros [= ->]. discriminate.
  - apply (IH _ H). lia.
Qed.

Lemma scan_up_in_range a fuel : forall i,
  0 <= i -> i + Z.of_nat fuel <= Z.of_nat (List.length a) ->
  scan_up a i fuel <> OutOfRange.
Proof.
  induction fuel as [|fuel IH]; simpl; intros i Hi Hlen; [discriminate|].
  destruct (i <? 0) eqn:Hneg; [apply Z.ltb_lt in Hneg; lia|].
  destruct (a !! Z.to_nat i) as [b|] eqn:Hl.
  - destruct (b =? 0); [discriminate|]. apply IH; lia.
  - apply lookup_ge_None in Hl. lia.
Qed.

Lemma walk_back_Found a n i :
  walk_back a n = Found i ->
  0 <= i < Z.of_nat n /\ a !! Z.to_nat i = Some 1 /\
  forall j, i < j < Z.of_nat n -> a !! Z.to_nat j <> Some 1.
Proof.
  induction n as [|n IH]; simpl; [discriminate|].
  destruct (a !! n) as [b|] eqn:Hn; [|discriminate].
  destruct (b =? 1) eqn:Hb.
  - intros [= <-]. apply Z.eqb_eq in Hb as ->.
    rewrite Nat2Z.id. repeat split; try lia; auto.
  - intros H. destruct (IH H) as (Hi & Hone & Hmax).
    repeat split; try lia; auto.
    intros j Hj. destruct (Z.eq_dec j (Z.of_nat n)) as [->|Hne].
    + rewrite Nat2Z.id, Hn. intros [= ->]. discriminate.
    + apply Hmax. lia.
Qed.

Lemma walk_back_NotFound a n :
  walk_back a n = NotFound ->
  forall j, 0 <= j < Z.of_nat n -> a !! Z.to_nat j <> Some 1.
Proof.
  induction n as [|n IH]; simpl; [intros; lia|].
  destruct (a !! n) as [b|] eqn:Hn; [|discriminate].
  destruct (b =? 1) eqn:Hb; [discriminate|].
  intros H j Hj. destruct (Z.eq_dec j (Z.of_nat n)) as [->|Hne].
  - rewrite Nat2Z.id, Hn. intros [= ->]. discriminate.
  - apply IH; [assumption|lia].
Qed.

Lemma walk_back_in_range a n :
  (n <= List.length a)%nat -> walk_back a n <> OutOfRange.
Proof.
  induction n as [|n IH]; simpl; [discriminate|]. intros Hn.
  destruct (a !! n) as [b|] eqn:Hl.
  - destruct (b =? 1); [discriminate|]. apply IH. lia.
  - apply lookup_ge_None in Hl. lia.
Qed.

Lemma slot_nonneg p i : 0 <= i -> slot p i = Allocation p !! Z.to_nat i.
Proof. unfold slot. intros H. destruct (i <? 0) eqn:E; [lia|reflexivity]. Qed.

(** * The search of [AllocateIP] on a well-formed pool *)

(** A free slot at or below the mark: the highest one is taken and the
    mark stays. *)
Lemma AllocateIP_reverse p i :
  wf p ->
  0 <= i <= LastAllocatedIP p ->
  slot p i = Some 0 ->
  (forall j, i < j <= LastAllocatedIP p -> slot p j <> Some 0) ->
  AllocateIP p = (Done (address_of (CidrRange p) i), set_slot p i 1).
Proof.
  intros [Hlen Hlast] Hi Hfree Hmax. unfold AllocateIP.
  destruct (LastAllocatedIP p >=? TotalIps p) eqn:Hg; [lia|].
  destruct (scan_down _ _) as [k| |] eqn:Hs.
  - apply scan_down_Found in Hs as (Hk & Hk0 & Hkmax).
    rewrite slot_nonneg in Hfree by lia.
    assert (k = i) as ->; [|reflexivity].
    destruct (Z.lt_trichotomy k i) as [Hlt|[->|Hgt]]; [|reflexivity|].
    + exfalso. apply (Hkmax i); [lia|assumption].
    + exfalso. apply (Hmax k); [lia|]. rewrite slot_nonneg by lia. assumption.
  - exfalso. rewrite slot_nonneg in Hfree by lia.
    apply (scan_down_NotFound _ _ Hs i); [lia|assumption].
  - exfalso. revert Hs. apply scan_down_in_range. lia.
Qed.

(** No free slot at or below the mark: the lowest free slot above it is
    taken and becomes the mark. *)
Lemma AllocateIP_forward p i :
  wf p ->
  (forall j, 0 <= j <= LastAllocatedIP p -> slot p j <> Some 0) ->
  LastAllocatedIP p < i < TotalIps p ->
  slot p i = Some 0 ->
  (forall j, LastAllocatedIP p < j < i -> slot p j <> Some 0) ->
  AllocateIP p
  = (Done (address_of (CidrRange p) i), set_last (set_slot p i 1) i).
Proof.
  intros [Hlen Hlast] Hbelow Hi Hfree Hmin. unfold AllocateIP.
  destruct (LastAllocatedIP p >=? TotalIps p) eqn:Hg; [lia|].
  rewrite slot_nonneg in Hfree by lia.
  destruct (scan_down _ _) as [k| |] eqn:Hs.
  - exfalso. apply scan_down_Found in Hs as (Hk & Hk0 & _).
    apply (Hbelow k); [lia|]. rewrite slot_nonneg by lia. assumption.
  - destruct (scan_up _ _ _) as [k| |] eqn:Hu.
    + apply scan_up_Found in Hu as (Hk & Hk0 & Hkmin).
      assert (k = i) as ->; [|reflexivity].
      destruct (Z.lt_trichotomy k i) as [Hlt|[->|Hgt]]; [|reflexivity|].
      * exfalso. apply (Hmin k); [lia|]. rewrite slot_nonneg by lia.
        assumption.
      * exfalso. apply (Hkmin i); [lia|assumption].
    + exfalso. apply (scan_up_NotFound _ _ _ Hu i); [lia|assumption].
    + exfalso. revert Hu. apply scan_up_in_range; lia.
  - exfalso. revert Hs. apply scan_down_in_range. lia.
Qed.

(** No free slot at all: the call fails and the pool is as before. *)
Lemma AllocateIP_exhausted p :
  wf p ->
  (forall j, 0 <= j < TotalIps p -> slot p j <> Some 0) ->
  AllocateIP p = (Done (Err NoAvailableIPs), p).
Proof.
  intros [Hlen Hlast] Hnone. unfold AllocateIP.
  destruct (LastAllocatedIP p >=? TotalIps p) eqn:Hg; [lia|].
  destruct (scan_down _ _) as [k| |] eqn:Hs.
  - exfalso. apply scan_down_Found in Hs as (Hk & Hk0 & _).
    apply (Hnone k); [lia|]. rewrite slot_nonneg by lia. assumption.
  - destruct (scan_up _ _ _) as [k| |] eqn:Hu.
    + exfalso. apply scan_up_Found in Hu as (Hk & Hk0 & _).
      apply (Hnone k); [lia|]. rewrite slot_nonneg by lia. assumption.
    + reflexivity.
    + exfalso. revert Hu. apply scan_up_in_range; lia.
  - exfalso. revert Hs. apply scan_down_in_range. lia.
Qed.

(** * What the operations keep *)

Lemma set_slot_wf p i v : wf p -> wf (set_slot p i v).
Proof.
  intros [Hlen Hlast]. split; simpl; [|assumption].
  rewrite length_insert. assumption.
Qed.

Lemma set_slot_binary p i v : binary p -> v = 0 \/ v = 1 -> binary (set_slot p i v).
Proof. intros Hb Hv. unfold binary. simpl. apply Forall_insert; assumption. Qed.

Lemma same_frame_refl p : same_frame p p.
Proof. repeat split. Qed.

Lemma AllocateIP_keeps p :
  wf p -> binary p ->
  wf (snd (AllocateIP p)) /\ binary (snd (AllocateIP p)) /\
  same_frame p (snd (AllocateIP p)).
Proof.
  intros Hwf Hbin. pose proof Hwf as [Hlen Hlast]. unfold AllocateIP.
  destruct (LastAllocatedIP p >=? TotalIps p);
    [simpl; auto using same_frame_refl|].
  destruct (scan_down _ _) as [k| |] eqn:Hs; simpl.
  - split; [apply set_slot_wf, Hwf|].
    split; [apply set_slot_binary; auto|]. repeat split.
  - destruct (scan_up _ _ _) as [k| |] eqn:Hu; simpl;
      auto using same_frame_refl.
    apply scan_up_Found in Hu as (Hk & _ & _).
    split; [|split; [apply set_slot_binary; auto|repeat split]].
    split; simpl; [rewrite length_insert; assumption|lia].
  - auto using same_frame_refl.
Qed.

Lemma AllocateIP_no_panic p : wf p -> fst (AllocateIP p) <> Panic.
Proof.
  intros [Hlen Hlast]. unfold AllocateIP.
  destruct (LastAllocatedIP p >=? TotalIps p); [discriminate|].
  destruct (scan_down _ _) as [k| |] eqn:Hs; simpl; try discriminate.
  - destruct (scan_up _ _ _) as [k| |] eqn:Hu; simpl; try discriminate.
    exfalso. revert Hu. apply scan_up_in_range; lia.
  - exfalso. revert Hs. apply scan_down_in_range. lia.
Qed.

Lemma ReleaseIP_keeps p ip :
  wf p -> binary p ->
  wf (snd (ReleaseIP p ip)) /\ binary (snd (ReleaseIP p ip)) /\
  same_frame p (snd (ReleaseIP p ip)).
Proof.
  intros Hwf Hbin. pose proof Hwf as [Hlen Hlast]. unfold ReleaseIP.
  destruct ip as [bs|]; [|simpl; auto using same_frame_refl].
  destruct (Net.To4 (Some bs)) as [ip4|]; [|simpl; auto using same_frame_refl].
  destruct (ip4 !! 3%nat) as [b|]; [|simpl; auto using same_frame_refl].
  cbv zeta.
  destruct (_ || _) eqn:Hrange; [simpl; auto using same_frame_refl|].
  apply orb_false_iff in Hrange as [Hlo Hhi].
  destruct (Allocation p !! Z.to_nat (b - 1)) as [v|];
    [|simpl; auto using same_frame_refl].
  destruct (v =? 0); [simpl; auto using same_frame_refl|].
  assert (Hwf1 : wf (set_slot p (b - 1) 0)) by (apply set_slot_wf, Hwf).
  assert (Hbin1 : binary (set_slot p (b - 1) 0))
    by (apply set_slot_binary; auto).
  destruct (b - 1 =? _) eqn:Heq; [|simpl; repeat split; auto; apply Hwf1].
  destruct (walk_back _ _) as [k| |] eqn:Hw;
    try (simpl; repeat split; auto; apply Hwf1).
  apply walk_back_Found in Hw as (Hk & _ & _). simpl in Hk.
  split; [|split; [exact Hbin1|repeat split]].
  split; simpl; [rewrite length_insert; assumption|lia].
Qed.

(** Every pool built by [NewIpPool] and used through [AllocateIP] and
    [ReleaseIP] is well formed, holds zeros and ones, has between 1 and
    2^32 - 3 slots, and carries a [CidrRange] that [net.ParseIP] rejects. *)
Lemma reachable_inv p :
  reachable p ->
  wf p /\ binary p /\ Gateway p = 0 /\ 1 <= TotalIps p <= 4294967293 /\
  Net.ParseIP (CidrRange p) = None.
Proof.
  induction 1 as [fs name cidr path p Hnew|p Hr IH|p ip Hr IH].
  - apply NewIpPool_Done in Hnew as (addr & n & Hc & Hones & ->).
    set (k := Net.mask_ones (Net.net_Mask n)) in *.
    assert (4 <= 2 ^ k <= 4294967296).
    { split.
      - change 4 with (2 ^ 2). apply Z.pow_le_mono_r; lia.
      - change 4294967296 with (2 ^ 32). apply Z.pow_le_mono_r; lia. }
    simpl. repeat split; simpl; try lia.
    + apply length_replicate.
    + apply Forall_replicate. auto.
    + eapply ParseIP_of_CIDR, Hc.
  - destruct IH as (Hwf & Hbin & Hgw & Htot & Hip).
    destruct (AllocateIP_keeps p Hwf Hbin) as (Hwf' & Hbin' & _ & Hc & _ & Hg & Ht).
    rewrite Hg, Ht, Hc. auto.
  - destruct IH as (Hwf & Hbin & Hgw & Htot & Hip).
    destruct (ReleaseIP_keeps p ip Hwf Hbin) as (Hwf' & Hbin' & _ & Hc & _ & Hg & Ht).
    rewrite Hg, Ht, Hc. auto.
Qed.

Lemma address_of_unparsable cidr i :
  Net.ParseIP cidr = None -> address_of cidr i = Err (InvalidCIDR cidr).
Proof. unfold address_of. intros ->. reflexivity. Qed.

(** No pool that [NewIpPool] built ever hands out an address: a call of
    [AllocateIP] on it never returns one. *)
Lemma reachable_never_allocates p ip :
  reachable p -> fst (AllocateIP p) <> Done (Ok ip).
Proof.
  intros Hr. destruct (reachable_inv p Hr) as (_ & _ & _ & _ & Hip).
  unfold AllocateIP.
  destruct (LastAllocatedIP p >=? TotalIps p); [discriminate|].
  destruct (scan_down _ _) as [k| |]; simpl.
  - rewrite address_of_unparsable by assumption. discriminate.
  - destruct (scan_up _ _ _) as [k| |]; simpl; try discriminate.
    rewrite address_of_unparsable by assumption. discriminate.
  - discriminate.
Qed.

(** A successful call returns the address parsed from [CidrRange] with its
    last byte advanced by [i + 1] modulo 256, [i] being the slot it marked. *)
Lemma AllocateIP_address p ip p' :
  AllocateIP p = (Done (Ok ip), p') ->
  exists base i,
    Net.To4 (Net.ParseIP (CidrRange p)) = Some base /\
    ip = add_host base i /\
    slot p i = Some 0 /\
    Allocation p' = <[Z.to_nat i := 1]> (Allocation p).
Proof.
  unfold AllocateIP.
  destruct (LastAllocatedIP p >=? TotalIps p); [discriminate|].
  assert (Haddr : forall i, address_of (CidrRange p) i = Ok ip ->
            exists base, Net.To4 (Net.ParseIP (CidrRange p)) = Some base /\
                         ip = add_host base i).
  { intros i. unfold address_of.
    destruct (Net.To4 _) as [base|]; [|discriminate].
    intros [= <-]. eauto. }
  destruct (scan_down _ _) as [k| |] eqn:Hs.
  - intros [= Hr <-]. apply Haddr in Hr as (base & Hb & ->).
    apply scan_down_Found in Hs as (Hk & Hk0 & _).
    exists base, k. rewrite slot_nonneg by lia. auto.
  - destruct (scan_up _ _ _) as [k| |] eqn:Hu; try discriminate.
    intros [= Hr <-]. apply Haddr in Hr as (base & Hb & ->).
    pose proof (scan_up_start _ _ _ _ Hu).
    apply scan_up_Found in Hu as (Hk & Hk0 & _).
    exists base, k. rewrite slot_nonneg by lia. auto.
  - discriminate.
Qed.

(** * [ReleaseIP] *)

Lemma To4_length ip ip4 : Net.To4 ip = Some ip4 -> List.length ip4 = 4%nat.
Proof.
  unfold Net.To4. destruct ip as [bs|]; [|discriminate].
  destruct (Nat.eqb (List.length bs) 4) eqn:H4.
  - intros [= <-]. apply Nat.eqb_eq, H4.
  - destruct (_ && _) eqn:H16; [|discriminate].
    apply andb_true_iff in H16 as [H16 _]. apply Nat.eqb_eq in H16.
    intros [= <-]. rewrite length_drop. lia.
Qed.

Lemma To4_last_byte ip ip4 : Net.To4 ip = Some ip4 -> exists b, ip4 !! 3%nat = Some b.
Proof.
  intros H. apply To4_length in H.
  destruct (ip4 !! 3%nat) as [b|] eqn:Hl; [eauto|].
  apply lookup_ge_None in Hl. lia.
Qed.

Lemma To4_Some_not_nil ip ip4 : Net.To4 ip = Some ip4 -> exists bs, ip = Some bs.
Proof. destruct ip; [eauto|discriminate]. Qed.

(** C10.  Whenever [ReleaseIP] returns an error (nil address, address that
    is not IPv4, index out of the pool, slot already free), the pool it
    leaves is the pool it was given: bitmap and mark are untouched. *)
Theorem ReleaseIP_error_keeps_pool p ip e p' :
  ReleaseIP p ip = (Done (Some e), p') -> p' = p.
Proof.
  unfold ReleaseIP.
  destruct ip as [bs|]; [|congruence].
  destruct (Net.To4 (Some bs)) as [ip4|]; [|congruence].
  destruct (ip4 !! 3%nat) as [b|]; [|congruence]. cbv zeta.
  destruct (_ || _); [congruence|].
  destruct (Allocation p !! Z.to_nat (b - 1)) as [v|]; [|congruence].
  destruct (v =? 0); [congruence|].
  destruct (b - 1 =? _); [|congruence].
  destruct (walk_back _ _); congruence.
Qed.

(** The release of 10.0.0.2, whose slot is free, from a pool with slots 0
    and 2 allocated. *)
Lemma ReleaseIP_error_keeps_pool_witness :
  ReleaseIP pool_two_used (Some [10; 0; 0; 2])
  = (Done (Some NotAllocated), pool_two_used) /\
  snd (ReleaseIP pool_two_used (Some [10; 0; 0; 2])) = pool_two_used.
Proof.
  split; [reflexivity|].
  apply (ReleaseIP_error_keeps_pool pool_two_used (Some [10; 0; 0; 2])
           NotAllocated).
  reflexivity.
Defined.

(** C6, as the code has it.  For an IPv4 address whose last byte is [b],
    the slot released is [b - 1].  [ReleaseIP] fails exactly when that index
    is outside the pool or its slot is already free, with the error of that
    case; a nil or non-IPv4 address fails before any index is derived.
    Otherwise the slot is cleared, and when it was the mark, the mark moves
    down to the nearest slot below that holds 1; when no slot below holds 1
    the mark stays where it was. *)
Theorem ReleaseIP_semantics p ip :
  List.length (Allocation p) = Z.to_nat (TotalIps p) ->
  (Net.To4 ip = None ->
   exists e, ReleaseIP p ip = (Done (Some e), p) /\ (e = NilIP \/ e = NotIPv4)) /\
  (forall ip4 b,
     Net.To4 ip = Some ip4 -> ip4 !! 3%nat = Some b ->
     let index := b - 1 in
     let refused := index < 0 \/ TotalIps p <= index \/ slot p index = Some 0 in
     (refused <-> exists e, fst (ReleaseIP p ip) = Done (Some e)) /\
     (forall e, fst (ReleaseIP p ip) = Done (Some e) ->
        (e = OutOfPool /\ (index < 0 \/ TotalIps p <= index)) \/
        (e = NotAllocated /\ slot p index = Some 0)) /\
     (~ refused ->
      exists p',
        ReleaseIP p ip = (Done None, p') /\
        same_frame p p' /\
        Allocation p' = <[Z.to_nat index := 0]> (Allocation p) /\
        (index <> LastAllocatedIP p ->
         LastAllocatedIP p' = LastAllocatedIP p) /\
        (index = LastAllocatedIP p ->
         forall j, 0 <= j < index -> slot p j = Some 1 ->
           (forall k, j < k < index -> slot p k <> Some 1) ->
           LastAllocatedIP p' = j) /\
        (index = LastAllocatedIP p ->
         (forall j, 0 <= j < index -> slot p j <> Some 1) ->
         LastAllocatedIP p' = LastAllocatedIP p))).
Proof.
  intros Hlen. split.
  { unfold ReleaseIP. destruct ip as [bs|]; [|intros _; eauto].
    intros ->. eauto. }
  intros ip4 b H4 Hb index refused. subst refused.
  destruct (To4_Some_not_nil _ _ H4) as [bs ->].
  unfold ReleaseIP. rewrite H4, Hb. cbv zeta. fold index.
  destruct ((index <? 0) || (index >=? TotalIps p)) eqn:Hrange.
  { assert (Hout : index < 0 \/ TotalIps p <= index).
    { apply orb_true_iff in Hrange as [H|H]; lia. }
    simpl. split; [|split].
    - split; [eauto|]. intros _. tauto.
    - intros e [= <-]. auto.
    - intros Hn. exfalso. apply Hn. tauto. }
  apply orb_false_iff in Hrange as [Hlo Hhi].
  assert (Hin : 0 <= index < TotalIps p) by lia.
  rewrite (slot_nonneg p index) in * by lia.
  destruct (Allocation p !! Z.to_nat index) as [v|] eqn:Hv;
    [|apply lookup_ge_None in Hv; lia].
  destruct (v =? 0) eqn:Hv0.
  { apply Z.eqb_eq in Hv0 as ->. simpl. split; [|split].
    - split; [eauto|]. intros _. auto.
    - intros e [= <-]. auto.
    - intros Hn. exfalso. apply Hn. auto. }
  assert (Hnot : ~ (index < 0 \/ TotalIps p <= index \/ Some v = Some 0)).
  { intros [H|[H|H]]; try lia. inversion H. subst. discriminate. }
  assert (Hbelow : forall j, 0 <= j < index ->
            Allocation (set_slot p index 0) !! Z.to_nat j = slot p j).
  { intros j Hj. rewrite slot_nonneg by lia. simpl.
    apply list_lookup_insert_ne. lia. }
  simpl LastAllocatedIP.
  destruct (index =? LastAllocatedIP p) eqn:Heq.
  - apply Z.eqb_eq in Heq.
    replace (Z.to_nat (LastAllocatedIP p - 1 + 1)) with (Z.to_nat index)
      by lia.
    destruct (walk_back _ _) as [k| |] eqn:Hw.
    + apply walk_back_Found in Hw as (Hk & Hk1 & Hkmax).
      rewrite Z2Nat.id in * by lia.
      simpl fst. split; [|split].
      * split; [tauto|]. intros [e He]. discriminate.
      * intros e He. discriminate.
      * intros _. eexists. split; [reflexivity|].
        split; [repeat split|]. split; [reflexivity|].
        split; [intros; simpl; lia|]. simpl. split.
        -- intros _ j Hj Hj1 Hjmax.
           rewrite Hbelow in Hk1 by lia.
           destruct (Z.lt_trichotomy k j) as [Hlt|[->|Hgt]];
             [|reflexivity|].
           ++ exfalso. apply (Hkmax j); [lia|]. rewrite Hbelow by lia.
              assumption.
           ++ exfalso. apply (Hjmax k); [lia|assumption].
        -- intros _ Hnone. exfalso. apply (Hnone k); [lia|].
           rewrite <- Hbelow by lia. assumption.
    + pose proof (walk_back_NotFound _ _ Hw) as Hnone.
      rewrite Z2Nat.id in * by lia.
      simpl fst. split; [|split].
      * split; [tauto|]. intros [e He]. discriminate.
      * intros e He. discriminate.
      * intros _. eexists. split; [reflexivity|].
        split; [repeat split|]. split; [reflexivity|].
        split; [intros; reflexivity|]. simpl. split; [|reflexivity].
        intros _ j Hj Hj1 _. exfalso. apply (Hnone j); [lia|].
        rewrite Hbelow by lia. assumption.
    + exfalso. revert Hw. apply walk_back_in_range. simpl.
      rewrite length_insert. lia.
  - apply Z.eqb_neq in Heq. simpl fst. split; [|split].
    + split; [tauto|]. intros [e He]. discriminate.
    + intros e He. discriminate.
    + intros _. eexists. split; [reflexivity|].
      split; [repeat split|]. split; [reflexivity|].
      split; [reflexivity|]. split; intros; lia.
Qed.

(** The release of 10.0.0.3, the marked slot 2, from a pool with slots 0
    and 2 allocated: the mark moves down to slot 0. *)
Lemma ReleaseIP_semantics_witness :
  exists p',
    ReleaseIP pool_two_used (Some [10; 0; 0; 3]) = (Done None, p') /\
    Allocation p' = [1; 0; 0; 0; 0] /\
    LastAllocatedIP p' = 0.
Proof.
  destruct (ReleaseIP_semantics pool_two_used (Some [10; 0; 0; 3]) eq_refl)
    as [_ H].
  destruct (H [10; 0; 0; 3] 3 eq_refl eq_refl) as (_ & _ & Hok).
  destruct Hok as (p' & Hr & _ & Ha & _ & Hdown & _).
  { intros [Hlt|[Hge|Hfree]]; [discriminate Hlt| |discriminate Hfree].
    apply Hge. reflexivity. }
  exists p'. split; [exact Hr|]. split; [exact Ha|].
  apply Hdown; [reflexivity|split; [discriminate|reflexivity]|reflexivity|].
  intros k [Hk1 Hk2]. assert (k = 1) as -> by lia. discriminate.
Defined.

(** C6, counterexample.  Releasing 10.0.0.3 from a pool whose only
    allocated slot is the marked slot 2 leaves the mark on 2, an index of
    the bitmap (of a slot that is now free): the mark is not reset. *)
Lemma release_keeps_mark_counterexample :
  ~ release_resets_mark pool_top_only (Some [10; 0; 0; 3]).
Proof.
  intros H.
  refine (H [10; 0; 0; 3] 3 _ eq_refl eq_refl eq_refl _ eq_refl _).
  - intros j Hj. assert (j = 0 \/ j = 1) as [->| ->] by lia; discriminate.
  - simpl. lia.
Qed.

(** What that release leaves: an all-free bitmap with the mark still on
    slot 2, where [NewIpPool] starts a pool with the mark on slot 0. *)
Example release_of_last_slot :
  ReleaseIP pool_top_only (Some [10; 0; 0; 3])
  = (Done None,
     {| PoolName := "net"; CidrRange := "10.0.0.0/3"; Path := "/var/lib/cni";
        Gateway := 0; TotalIps := 5; LastAllocatedIP := 2;
        Allocation := [0; 0; 0; 0; 0] |}).
Proof. reflexivity. Qed.

(** Both pools of the worked cases arise from [NewIpPool]. *)
Lemma pool_top_only_reachable : reachable pool_top_only.
Proof.
  assert (Hnew : reachable
            {| PoolName := "net"; CidrRange := "10.0.0.0/3";
               Path := "/var/lib/cni"; Gateway := 0; TotalIps := 5;
               LastAllocatedIP := 0; Allocation := [0; 0; 0; 0; 0] |}).
  { apply (reach_new open_fs "net" "10.0.0.0/3" "/var/lib/cni"). reflexivity. }
  do 3 apply reach_allocate in Hnew.
  apply (reach_release _ (Some [10; 0; 0; 1])) in Hnew.
  apply (reach_release _ (Some [10; 0; 0; 2])) in Hnew.
  exact Hnew.
Qed.

Lemma pool_two_used_reachable : reachable pool_two_used.
Proof.
  assert (Hnew : reachable
            {| PoolName := "net"; CidrRange := "10.0.0.0/3";
               Path := "/var/lib/cni"; Gateway := 0; TotalIps := 5;
               LastAllocatedIP := 0; Allocation := [0; 0; 0; 0; 0] |}).
  { apply (reach_new open_fs "net" "10.0.0.0/3" "/var/lib/cni"). reflexivity. }
  do 3 apply reach_allocate in Hnew.
  apply (reach_release _ (Some [10; 0; 0; 2])) in Hnew.
  exact Hnew.
Qed.

(** * [NewIpPool] *)

Lemma NewIpPool_ok fs name cidr path addr n :
  name <> "" -> cidr <> "" -> path <> "" ->
  Net.ParseCIDR cidr = Some (addr, n) ->
  mkdir_ok fs path = true ->
  2 <= Net.mask_ones (Net.net_Mask n) ->
  NewIpPool fs name cidr path
  = Done {| PoolName := name; CidrRange := cidr; Path := path; Gateway := 0;
            TotalIps := 2 ^ Net.mask_ones (Net.net_Mask n) - 3;
            LastAllocatedIP := 0;
            Allocation :=
              replicate (Z.to_nat (2 ^ Net.mask_ones (Net.net_Mask n) - 3)) 0 |}.
Proof.
  intros Hn Hc Hp Hparse Hmk Hones. unfold NewIpPool.
  apply String.eqb_neq in Hn, Hc, Hp. rewrite Hn, Hc, Hp, Hparse, Hmk. simpl.
  unfold make_bytes. pose proof (ParseCIDR_ones _ _ _ Hparse) as Hle.
  set (k := Net.mask_ones (Net.net_Mask n)) in *.
  rewrite Z.shiftl_1_l.
  assert (4 <= 2 ^ k).
  { change 4 with (2 ^ 2). apply Z.pow_le_mono_r; lia. }
  destruct (2 ^ k - 3 <? 0) eqn:E; [lia|reflexivity].
Qed.

Example ParseCIDR_slash24 :
  Net.ParseCIDR "10.0.0.0/24"
  = Some (Net.v4InV6Prefix ++ [10; 0; 0; 0],
          {| Net.net_IP := [10; 0; 0; 0];
             Net.net_Mask := {| Net.mask_ones := 24; Net.mask_bits := 32 |} |}).
Proof. reflexivity. Qed.

Example ParseIP_slash24 : Net.ParseIP "10.0.0.0/24" = None.
Proof. reflexivity. Qed.

Example ParseIP_plain : Net.To4 (Net.ParseIP "10.0.0.0") = Some [10; 0; 0; 0].
Proof. reflexivity. Qed.

(** C1, at the subnet the claim names.  [NewIpPool] over 10.0.0.0/24 builds
    a pool of 2^24 - 3 = 16777213 slots, the prefix length standing where
    the host-bit count belongs, and not the 2^8 - 3 = 253 of the claim. *)
Theorem NewIpPool_slash24_size :
  exists p,
    NewIpPool open_fs "net" "10.0.0.0/24" "/var/lib/cni" = Done p /\
    TotalIps p = 16777213 /\
    Z.of_nat (List.length (Allocation p)) = 16777213 /\
    TotalIps p <> 2 ^ (32 - 24) - 3.
Proof.
  eexists. split.
  - eapply NewIpPool_ok;
      [discriminate|discriminate|discriminate|exact ParseCIDR_slash24
      |reflexivity|simpl; lia].
  - cbn [TotalIps Allocation Net.mask_ones Net.net_Mask].
    split; [reflexivity|]. split; [|intros H; vm_compute in H; discriminate].
    rewrite length_replicate, Z2Nat.id; [reflexivity|].
    apply Z.leb_le. reflexivity.
Qed.

(** * [AllocateIP] on the pools [NewIpPool] builds *)

(** Where [CidrRange] is the text of a plain address, slot [i] stands for
    that address with its last byte advanced by [i + 1], modulo 256. *)
Example address_of_slot_0 : address_of "10.0.0.0" 0 = Ok [10; 0; 0; 1].
Proof. reflexivity. Qed.

Example address_of_slot_255 : address_of "10.0.0.0" 255 = Ok [10; 0; 0; 0].
Proof. reflexivity. Qed.

Example address_of_slot_256 :
  address_of "10.0.0.0" 256 = address_of "10.0.0.0" 0.
Proof. reflexivity. Qed.

Example address_of_cidr_text :
  address_of "10.0.0.0/24" 0 = Err (InvalidCIDR "10.0.0.0/24").
Proof. reflexivity. Qed.

(** The first call on any fresh pool whose [CidrRange] is not the text of
    a plain address: slot 0 is marked and the parse error comes back. *)
Lemma fresh_pool_first_allocation name cidr path total :
  1 <= total ->
  Net.ParseIP cidr = None ->
  let p := {| PoolName := name; CidrRange := cidr; Path := path;
              Gateway := 0; TotalIps := total; LastAllocatedIP := 0;
              Allocation := replicate (Z.to_nat total) 0 |} in
  AllocateIP p = (Done (Err (InvalidCIDR cidr)), set_slot p 0 1) /\
  slot (set_slot p 0 1) 0 = Some 1.
Proof.
  intros Htotal Hip p.
  assert (Hn : (0 < Z.to_nat total)%nat) by lia.
  assert (Hwf : wf p).
  { split; simpl; [apply length_replicate|lia]. }
  assert (Hfree : slot p 0 = Some 0).
  { unfold slot. simpl. apply lookup_replicate_2. exact Hn. }
  split.
  - rewrite (AllocateIP_reverse p 0 Hwf); [|simpl; lia|exact Hfree|simpl; lia].
    simpl CidrRange. rewrite address_of_unparsable by assumption. reflexivity.
  - unfold slot. simpl. apply list_lookup_insert_eq.
    rewrite length_replicate. exact Hn.
Qed.

(** C4, at the pool the claim names.  On a fresh pool over 10.0.0.0/24 the
    first call of [AllocateIP] marks slot 0 and then fails, because
    [net.ParseIP] is given the CIDR text "10.0.0.0/24"; it returns no
    address, and in particular not 10.0.0.2. *)
Theorem first_allocation_slash24 :
  exists p,
    NewIpPool open_fs "net" "10.0.0.0/24" "/var/lib/cni" = Done p /\
    fst (AllocateIP p) = Done (Err (InvalidCIDR "10.0.0.0/24")) /\
    fst (AllocateIP p) <> Done (Ok [10; 0; 0; 2]) /\
    slot (snd (AllocateIP p)) 0 = Some 1.
Proof.
  eexists. split.
  - eapply NewIpPool_ok;
      [discriminate|discriminate|discriminate|exact ParseCIDR_slash24
      |reflexivity|simpl; lia].
  - cbn [Net.mask_ones Net.net_Mask].
    assert (Htotal : 1 <= 2 ^ 24 - 3) by (apply Z.leb_le; reflexivity).
    destruct (fresh_pool_first_allocation "net" "10.0.0.0/24" "/var/lib/cni"
                (2 ^ 24 - 3) Htotal ParseIP_slash24) as [Ha Hs].
    rewrite Ha. cbn [fst snd].
    split; [reflexivity|]. split; [discriminate|exact Hs].
Qed.

(** C5, at the smallest pool.  [NewIpPool] over 64.0.0.0/2 builds a pool of
    one slot; its first [AllocateIP] fails on the CIDR text (after marking
    the slot) and its second fails for want of a free slot: no call
    succeeds, where the claim counts one. *)
Theorem one_slot_pool_allocations :
  exists p,
    NewIpPool open_fs "net" "64.0.0.0/2" "/var/lib/cni" = Done p /\
    TotalIps p = 1 /\
    fst (allocate_n 2 p)
    = [Done (Err (InvalidCIDR "64.0.0.0/2")); Done (Err NoAvailableIPs)] /\
    List.length (filter (fun r => succeeded r = true) (fst (allocate_n 2 p)))
    = 0%nat.
Proof. eexists. split; [reflexivity|]. repeat split. Qed.

(** C3, at a pool [NewIpPool] built.  After three calls the mark is on
    slot 2; slot 0 is released; the next call marks slot 0 again and leaves
    the mark on 2, but what it returns is the parse error, not the address
    of slot 0. *)
Theorem reuse_below_mark_returns_error :
  exists p p3 p4 p5,
    NewIpPool open_fs "net" "10.0.0.0/3" "/var/lib/cni" = Done p /\
    snd (allocate_n 3 p) = p3 /\
    LastAllocatedIP p3 = 2 /\
    ReleaseIP p3 (Some [10; 0; 0; 1]) = (Done None, p4) /\
    slot p4 0 = Some 0 /\
    AllocateIP p4 = (Done (Err (InvalidCIDR "10.0.0.0/3")), p5) /\
    slot p5 0 = Some 1 /\
    LastAllocatedIP p5 = 2.
Proof. do 4 eexists. split; [reflexivity|]. repeat split. Qed.

Lemma allocate_n_reachable n : forall p,
  reachable p -> reachable (snd (allocate_n n p)).
Proof.
  induction n as [|n IH]; intros p Hr; [exact Hr|]. simpl.
  destruct (AllocateIP p) as [r p1] eqn:Ha.
  specialize (IH p1). destruct (allocate_n n p1) as [rs p2]. simpl in *.
  apply IH. change p1 with (snd (r, p1)). rewrite <- Ha.
  apply reach_allocate, Hr.
Qed.

(** However many times [AllocateIP] is called on a pool that [NewIpPool]
    built, no call succeeds. *)
Lemma reachable_allocates_nothing n : forall p,
  reachable p -> Forall (fun r => succeeded r = false) (fst (allocate_n n p)).
Proof.
  induction n as [|n IH]; intros p Hr; [constructor|]. simpl.
  destruct (AllocateIP p) as [r p1] eqn:Ha.
  assert (Hr1 : reachable p1).
  { change p1 with (snd (r, p1)). rewrite <- Ha. apply reach_allocate, Hr. }
  specialize (IH p1 Hr1). destruct (allocate_n n p1) as [rs p2]. simpl in *.
  constructor; [|exact IH].
  destruct r as [[ip|e]| |]; try reflexivity.
  exfalso. apply (reachable_never_allocates p ip Hr). rewrite Ha. reflexivity.
Qed.

(** * The file round trip *)

Lemma value_of_char_of v :
  0 <= v < 64 ->
  Base64.value_of (Base64.char_of v) = Some v /\
  Base64.is_pad (Base64.char_of v) = false.
Proof.
  intros Hv. assert (H : exists n, (n < 64)%nat /\ v = Z.of_nat n).
  { exists (Z.to_nat v). lia. }
  destruct H as (n & Hn & ->). clear Hv.
  do 64 (destruct n as [|n]; [split; reflexivity|]). lia.
Qed.

Lemma list_ind3 {A} (P : list A -> Prop) :
  P [] -> (forall a, P [a]) -> (forall a b, P [a; b]) ->
  (forall a b c l, P l -> P (a :: b :: c :: l)) ->
  forall l, P l.
Proof.
  intros H0 H1 H2 H3.
  fix IH 1. intros [|a [|b [|c l]]];
    [exact H0|apply H1|apply H2|apply H3, IH].
Qed.

Lemma recombine a k :
  0 <= a < 256 -> 0 < k -> (a / k * k + a mod k) mod 256 = a.
Proof.
  intros Ha Hk. rewrite (Z.mul_comm (a / k)), <- Z.div_mod by lia.
  apply Z.mod_small. lia.
Qed.

Lemma Base64_roundtrip bs :
  Forall (fun b => 0 <= b < 256) bs ->
  Base64.decode (Base64.encode bs) = Some bs.
Proof.
  induction bs as [|a|a b|a b c l IH] using list_ind3; intros Hbs.
  - reflexivity.
  - inversion_clear Hbs as [|? ? Ha _]. cbn [Base64.encode Base64.decode].
    destruct (value_of_char_of (a / 4)) as [-> _];
      [split; [apply Z.div_pos|apply Z.div_lt_upper_bound]; lia|].
    destruct (value_of_char_of (a mod 4 * 16)) as [-> _];
      [pose proof (Z.mod_pos_bound a 4); lia|].
    cbn. rewrite Z.div_mul by lia. rewrite recombine by lia. reflexivity.
  - inversion_clear Hbs as [|? ? Ha Hbs']. inversion_clear Hbs' as [|? ? Hb _].
    cbn [Base64.encode Base64.decode].
    pose proof (Z.mod_pos_bound a 4). pose proof (Z.mod_pos_bound b 16).
    pose proof (Z.div_mod a 4). pose proof (Z.div_mod b 16).
    assert (0 <= a / 4 < 64)
      by (split; [apply Z.div_pos|apply Z.div_lt_upper_bound]; lia).
    assert (0 <= b / 16 < 16)
      by (split; [apply Z.div_pos|apply Z.div_lt_upper_bound]; lia).
    destruct (value_of_char_of (a / 4)) as [-> _]; [lia|].
    destruct (value_of_char_of (a mod 4 * 16 + b / 16)) as [-> _]; [lia|].
    destruct (value_of_char_of (b mod 16 * 4)) as [-> ->]; [lia|].
    cbn.
    assert (E1 : (a mod 4 * 16 + b / 16) / 16 = a mod 4).
    { rewrite Z.add_comm, Z.div_add by lia. rewrite Z.div_small; lia. }
    assert (E2 : (a mod 4 * 16 + b / 16) mod 16 = b / 16).
    { rewrite Z.add_comm, Z.mod_add by lia. apply Z.mod_small. lia. }
    assert (E3 : b mod 16 * 4 / 4 = b mod 16) by (apply Z.div_mul; lia).
    rewrite E1, E2, E3. rewrite !recombine by lia. reflexivity.
  - inversion_clear Hbs as [|? ? Ha Hbs']. inversion_clear Hbs' as [|? ? Hb Hbs].
    inversion_clear Hbs as [|? ? Hc Hl].
    cbn [Base64.encode Base64.decode].
    pose proof (Z.mod_pos_bound a 4). pose proof (Z.mod_pos_bound b 16).
    pose proof (Z.mod_pos_bound c 64).
    pose proof (Z.div_mod a 4). pose proof (Z.div_mod b 16).
    pose proof (Z.div_mod c 64).
    assert (0 <= a / 4 < 64)
      by (split; [apply Z.div_pos|apply Z.div_lt_upper_bound]; lia).
    assert (0 <= b / 16 < 16)
      by (split; [apply Z.div_pos|apply Z.div_lt_upper_bound]; lia).
    assert (0 <= c / 64 < 4)
      by (split; [apply Z.div_pos|apply Z.div_lt_upper_bound]; lia).
    destruct (value_of_char_of (a / 4)) as [-> _]; [lia|].
    destruct (value_of_char_of (a mod 4 * 16 + b / 16)) as [-> _]; [lia|].
    destruct (value_of_char_of (b mod 16 * 4 + c / 64)) as [-> ->]; [lia|].
    destruct (value_of_char_of (c mod 64)) as [-> ->]; [lia|].
    rewrite (IH Hl).
    assert (E1 : (a mod 4 * 16 + b / 16) / 16 = a mod 4).
    { rewrite Z.add_comm, Z.div_add by lia. rewrite Z.div_small; lia. }
    assert (E2 : (a mod 4 * 16 + b / 16) mod 16 = b / 16).
    { rewrite Z.add_comm, Z.mod_add by lia. apply Z.mod_small. lia. }
    assert (E3 : (b mod 16 * 4 + c / 64) / 4 = b mod 16).
    { rewrite Z.add_comm, Z.div_add by lia. rewrite Z.div_small; lia. }
    assert (E4 : (b mod 16 * 4 + c / 64) mod 4 = c / 64).
    { rewrite Z.add_comm, Z.mod_add by lia. apply Z.mod_small. lia. }
    rewrite E1, E2, E3, E4. rewrite !recombine by lia. reflexivity.
Qed.

Lemma fits_int_bounds z :
  - 9223372036854775808 <= z <= 9223372036854775807 -> fits_int z = true.
Proof. intros Hz. unfold fits_int. apply andb_true_iff. lia. Qed.

(** Decoding what [Marshal] wrote of [p] into any pool [q] gives [p] back,
    but for a zero [Gateway], which is not written and so stays as in [q]. *)
Lemma Unmarshal_Marshal p q :
  Allocation p <> [] ->
  Forall (fun b => 0 <= b < 256) (Allocation p) ->
  fits_int (Gateway p) = true ->
  fits_int (TotalIps p) = true ->
  fits_int (LastAllocatedIP p) = true ->
  Unmarshal (Marshal p) q
  = ({| PoolName := PoolName p; CidrRange := CidrRange p; Path := Path p;
        Gateway := if Gateway p =? 0 then Gateway q else Gateway p;
        TotalIps := TotalIps p; LastAllocatedIP := LastAllocatedIP p;
        Allocation := Allocation p |}, true).
Proof.
  intros Hne Hbytes Hg Ht Hl. unfold Marshal.
  apply Base64_roundtrip in Hbytes.
  destruct (Allocation p) as [|b bs] eqn:Ha; [congruence|].
  destruct (Gateway p =? 0);
    cbn -[Base64.encode Base64.decode fits_int];
    rewrite ?Hg, Ht, Hl, Hbytes; reflexivity.
Qed.

(** C7.  For a pool that [NewIpPool] built and [AllocateIP] and [ReleaseIP]
    have worked on: after a [Save] that succeeded, [Load] into any pool
    object with the same name and path succeeds and gives the same bitmap,
    the same last-allocated index and the same total (and the same name,
    CIDR text and path). *)
Theorem Save_Load_roundtrip p q fs fs' :
  reachable p ->
  PoolName q = PoolName p ->
  Path q = Path p ->
  Save p fs = (None, fs') ->
  exists q', Load q fs' = (None, q') /\
    Allocation q' = Allocation p /\
    LastAllocatedIP q' = LastAllocatedIP p /\
    TotalIps q' = TotalIps p /\
    PoolName q' = PoolName p /\ CidrRange q' = CidrRange p /\
    Path q' = Path p.
Proof.
  intros Hr Hname Hpath Hsave.
  destruct (reachable_inv p Hr) as ([Hlen Hlast] & Hbin & Hgw & Htot & _).
  unfold Save in Hsave.
  destruct (write_ok fs (pool_file p)); [|discriminate].
  injection Hsave as <-.
  unfold Load. cbn [files].
  replace (pool_file q) with (pool_file p)
    by (unfold pool_file; rewrite Hname, Hpath; reflexivity).
  rewrite lookup_insert_eq.
  rewrite Unmarshal_Marshal.
  - eexists. split; [reflexivity|]. repeat split.
  - intros Hnil. rewrite Hnil in Hlen. simpl in Hlen. lia.
  - eapply Forall_impl; [exact Hbin|]. simpl. lia.
  - rewrite Hgw. reflexivity.
  - apply fits_int_bounds. lia.
  - apply fits_int_bounds. lia.
Qed.

(** A pool with two slots allocated, saved and loaded into a fresh pool of
    the same name and path. *)
Lemma Save_Load_roundtrip_witness :
  exists q', Load pool_fresh (snd (Save pool_two_used open_fs)) = (None, q') /\
    Allocation q' = [1; 0; 1; 0; 0] /\
    LastAllocatedIP q' = 2 /\
    TotalIps q' = 5.
Proof.
  destruct (Save_Load_roundtrip pool_two_used pool_fresh open_fs
              (snd (Save pool_two_used open_fs))
              pool_two_used_reachable eq_refl eq_refl eq_refl)
    as (q' & Hload & Ha & Hl & Ht & _).
  exists q'. repeat split; assumption.
Defined.

(** * Beyond the claims: the pool *)

(** X1.  What [NewIpPool] does with every input whose CIDR text holds no
    colon (IPv4 notation or no address at all).  It ends the process with
    status 1 exactly when a name is empty, the CIDR text does not parse or
    the directory cannot be made; it panics exactly when the text parses
    with a prefix length of 0 or 1 (the slot count 2^prefix - 3 is then
    negative); otherwise it returns a pool that keeps the three names, has
    2^prefix - 3 slots, all free, and the mark on slot 0. *)
Theorem NewIpPool_outcomes fs name cidr path :
  Net.no_colon cidr = true ->
  match NewIpPool fs name cidr path with
  | Done p =>
      name <> "" /\ cidr <> "" /\ path <> "" /\ mkdir_ok fs path = true /\
      exists addr n,
        Net.ParseCIDR cidr = Some (addr, n) /\
        2 <= Net.mask_ones (Net.net_Mask n) /\
        PoolName p = name /\ CidrRange p = cidr /\ Path p = path /\
        TotalIps p = 2 ^ Net.mask_ones (Net.net_Mask n) - 3 /\
        Allocation p = replicate (Z.to_nat (TotalIps p)) 0 /\
        LastAllocatedIP p = 0 /\ Gateway p = 0
  | Exit c =>
      c = 1 /\
      (name = "" \/ cidr = "" \/ path = "" \/ Net.ParseCIDR cidr = None \/
       mkdir_ok fs path = false)
  | Panic =>
      name <> "" /\ cidr <> "" /\ path <> "" /\ mkdir_ok fs path = true /\
      exists addr n,
        Net.ParseCIDR cidr = Some (addr, n) /\
        0 <= Net.mask_ones (Net.net_Mask n) < 2
  end.
Proof.
  intros _.
  destruct (NewIpPool fs name cidr path) as [p|c|] eqn:Hnew.
  - pose proof Hnew as Hd.
    apply NewIpPool_Done in Hd as (addr & n & Hc & Hones & ->).
    unfold NewIpPool in Hnew.
    destruct (String.eqb name "") eqn:En; [discriminate|].
    destruct (String.eqb cidr "") eqn:Ec; [discriminate|].
    destruct (String.eqb path "") eqn:Ep; [discriminate|].
    rewrite Hc in Hnew. cbn [orb] in Hnew.
    destruct (mkdir_ok fs path) eqn:Emk; [|discriminate].
    apply String.eqb_neq in En, Ec, Ep.
    repeat (split; [assumption || reflexivity|]).
    exists addr, n. simpl. repeat split; try assumption; try reflexivity; try lia.
  - unfold NewIpPool in Hnew.
    destruct (String.eqb name "") eqn:En;
      [apply String.eqb_eq in En; injection Hnew as <-; auto|].
    destruct (String.eqb cidr "") eqn:Ec;
      [apply String.eqb_eq in Ec; injection Hnew as <-; auto|].
    destruct (String.eqb path "") eqn:Ep;
      [apply String.eqb_eq in Ep; injection Hnew as <-; auto|].
    cbn [orb] in Hnew.
    destruct (Net.ParseCIDR cidr) as [[addr n]|];
      [|injection Hnew as <-; auto 10].
    destruct (mkdir_ok fs path); [|injection Hnew as <-; auto 10].
    cbn [negb] in Hnew. unfold Net.Size, make_bytes in Hnew.
    destruct (_ <? 0); discriminate.
  - unfold NewIpPool in Hnew.
    destruct (String.eqb name "") eqn:En; [discriminate|].
    destruct (String.eqb cidr "") eqn:Ec; [discriminate|].
    destruct (String.eqb path "") eqn:Ep; [discriminate|].
    cbn [orb] in Hnew.
    destruct (Net.ParseCIDR cidr) as [[addr n]|] eqn:Hc; [|discriminate].
    destruct (mkdir_ok fs path) eqn:Emk; [|discriminate].
    cbn [negb] in Hnew. unfold Net.Size, make_bytes in Hnew.
    apply String.eqb_neq in En, Ec, Ep.
    repeat (split; [assumption || reflexivity|]).
    exists addr, n. split; [reflexivity|].
    pose proof (ParseCIDR_ones _ _ _ Hc) as Hle.
    set (k := Net.mask_ones (Net.net_Mask n)) in *.
    rewrite Z.shiftl_1_l in Hnew.
    destruct (2 ^ k - 3 <? 0) eqn:Hneg; [|discriminate].
    apply Z.ltb_lt in Hneg. split; [lia|].
    destruct (Z.lt_ge_cases k 2) as [|Hge]; [assumption|exfalso].
    assert (2 ^ 2 <= 2 ^ k) by (apply Z.pow_le_mono_r; lia).
    change (2 ^ 2) with 4 in *. lia.
Qed.

(** The text "10.0.0.0/3": the pool returned has 2^3 - 3 = 5 free slots. *)
Lemma NewIpPool_outcomes_witness :
  Net.no_colon "10.0.0.0/3" = true /\
  exists addr n,
    Net.ParseCIDR "10.0.0.0/3" = Some (addr, n) /\
    Net.mask_ones (Net.net_Mask n) = 3 /\
    TotalIps pool_fresh = 2 ^ Net.mask_ones (Net.net_Mask n) - 3 /\
    Allocation pool_fresh = replicate (Z.to_nat (TotalIps pool_fresh)) 0.
Proof.
  split; [reflexivity|].
  pose proof (NewIpPool_outcomes open_fs "net" "10.0.0.0/3" "/var/lib/cni"
                eq_refl) as H.
  change (NewIpPool open_fs "net" "10.0.0.0/3" "/var/lib/cni")
    with (Done pool_fresh) in H.
  destruct H as (_ & _ & _ & _ & addr & n & Hc & _ & _ & _ & _ & Ht & Ha & _).
  exists addr, n. repeat split; try assumption.
  vm_compute in Hc. injection Hc as _ <-. reflexivity.
Defined.

Lemma slot_set_slot_eq p i v :
  0 <= i -> (Z.to_nat i < List.length (Allocation p))%nat ->
  slot (set_slot p i v) i = Some v.
Proof.
  intros Hi Hlen. rewrite slot_nonneg by lia. simpl.
  apply list_lookup_insert_eq. exact Hlen.
Qed.

Lemma slot_set_slot_ne p i v j :
  0 <= i -> j <> i -> slot (set_slot p i v) j = slot p j.
Proof.
  intros Hi Hne. unfold slot. destruct (j <? 0) eqn:Hj; [reflexivity|].
  simpl. apply list_lookup_insert_ne. lia.
Qed.

Lemma ReleaseIP_no_panic p ip :
  List.length (Allocation p) = Z.to_nat (TotalIps p) ->
  fst (ReleaseIP p ip) <> Panic.
Proof.
  intros Hlen. unfold ReleaseIP.
  destruct ip as [bs|]; [|discriminate].
  destruct (Net.To4 (Some bs)) as [ip4|] eqn:H4; [|discriminate].
  destruct (To4_last_byte _ _ H4) as [b ->]. cbv zeta.
  destruct (_ || _) eqn:Hrange; [discriminate|].
  apply orb_false_iff in Hrange as [Hlo Hhi].
  destruct (Allocation p !! Z.to_nat (b - 1)) as [v|] eqn:Hv;
    [|apply lookup_ge_None in Hv; lia].
  destruct (v =? 0); [discriminate|].
  destruct (b - 1 =? _) eqn:Heq; [|discriminate].
  apply Z.eqb_eq in Heq. simpl in Heq.
  destruct (walk_back _ _) eqn:Hw; try discriminate.
  exfalso. revert Hw. apply walk_back_in_range. simpl.
  rewrite length_insert. lia.
Qed.

(** X2.  On a well-formed pool of zeros and ones, [AllocateIP] never
    panics (no index leaves the bitmap), leaves a well-formed pool of zeros
    and ones, and writes neither the names, the gateway nor the total. *)
Theorem AllocateIP_preserves p :
  wf p -> binary p ->
  fst (AllocateIP p) <> Panic /\
  wf (snd (AllocateIP p)) /\ binary (snd (AllocateIP p)) /\
  same_frame p (snd (AllocateIP p)).
Proof.
  intros Hwf Hbin. split; [apply AllocateIP_no_panic, Hwf|].
  apply AllocateIP_keeps; assumption.
Qed.

Lemma pool_two_used_wf : wf pool_two_used /\ binary pool_two_used.
Proof.
  split; [split; [reflexivity|simpl; lia]|].
  unfold binary. simpl.
  repeat match goal with
         | |- Forall _ (_ :: _) => constructor; [lia|]
         | |- Forall _ [] => constructor
         end.
Qed.

(** A call on the pool with slots 0 and 2 allocated. *)
Lemma AllocateIP_preserves_witness :
  fst (AllocateIP pool_two_used) <> Panic /\
  wf (snd (AllocateIP pool_two_used)) /\
  binary (snd (AllocateIP pool_two_used)) /\
  same_frame pool_two_used (snd (AllocateIP pool_two_used)).
Proof.
  apply AllocateIP_preserves; apply pool_two_used_wf.
Defined.

(** X3.  On a well-formed pool of zeros and ones, [ReleaseIP] never panics
    whatever the address, leaves a well-formed pool of zeros and ones, and
    writes neither the names, the gateway nor the total. *)
Theorem ReleaseIP_preserves p ip :
  wf p -> binary p ->
  fst (ReleaseIP p ip) <> Panic /\
  wf (snd (ReleaseIP p ip)) /\ binary (snd (ReleaseIP p ip)) /\
  same_frame p (snd (ReleaseIP p ip)).
Proof.
  intros Hwf Hbin. split; [apply ReleaseIP_no_panic, Hwf|].
  apply ReleaseIP_keeps; assumption.
Qed.

(** The release of 10.0.0.3 from the pool with slots 0 and 2 allocated. *)
Lemma ReleaseIP_preserves_witness :
  fst (ReleaseIP pool_two_used (Some [10; 0; 0; 3])) <> Panic /\
  wf (snd (ReleaseIP pool_two_used (Some [10; 0; 0; 3]))) /\
  binary (snd (ReleaseIP pool_two_used (Some [10; 0; 0; 3]))) /\
  same_frame pool_two_used (snd (ReleaseIP pool_two_used (Some [10; 0; 0; 3]))).
Proof.
  apply ReleaseIP_preserves; apply pool_two_used_wf.
Defined.

(** X4.  Which slot [AllocateIP] marks on a well-formed pool.  If a slot
    at or below the mark is free, the highest such slot is marked and the
    mark stays; if none is but a slot above the mark is free, the lowest
    such slot is marked and becomes the mark; if no slot is free, the call
    fails and the pool is as before.  In the first two cases the value
    returned is what [address_of] makes of the slot. *)
Theorem AllocateIP_search p :
  wf p ->
  (forall i,
     0 <= i <= LastAllocatedIP p -> slot p i = Some 0 ->
     (forall j, i < j <= LastAllocatedIP p -> slot p j <> Some 0) ->
     AllocateIP p = (Done (address_of (CidrRange p) i), set_slot p i 1)) /\
  (forall i,
     (forall j, 0 <= j <= LastAllocatedIP p -> slot p j <> Some 0) ->
     LastAllocatedIP p < i < TotalIps p -> slot p i = Some 0 ->
     (forall j, LastAllocatedIP p < j < i -> slot p j <> Some 0) ->
     AllocateIP p
     = (Done (address_of (CidrRange p) i), set_last (set_slot p i 1) i)) /\
  ((forall j, 0 <= j < TotalIps p -> slot p j <> Some 0) ->
   AllocateIP p = (Done (Err NoAvailableIPs), p)).
Proof.
  intros Hwf. split; [|split].
  - intros i. apply AllocateIP_reverse, Hwf.
  - intros i. apply AllocateIP_forward, Hwf.
  - apply AllocateIP_exhausted, Hwf.
Qed.

(** With slots 0 and 2 allocated and the mark on 2, slot 1 is taken and
    the mark stays; with slots 0, 1, 2 allocated, slot 3 is taken and
    becomes the mark. *)
Lemma AllocateIP_search_witness :
  snd (AllocateIP pool_two_used) = set_slot pool_two_used 1 1 /\
  snd (AllocateIP pool_three_used)
  = set_last (set_slot pool_three_used 3 1) 3.
Proof.
  split.
  - destruct (AllocateIP_search pool_two_used (proj1 pool_two_used_wf))
      as (Hdown & _ & _).
    rewrite (Hdown 1); [reflexivity|simpl; lia|reflexivity|].
    intros j Hj. simpl in Hj. assert (j = 2) as -> by lia. discriminate.
  - assert (Hwf : wf pool_three_used) by (split; [reflexivity|simpl; lia]).
    destruct (AllocateIP_search pool_three_used Hwf) as (_ & Hup & _).
    rewrite (Hup 3); [reflexivity| |simpl; lia|reflexivity|].
    + intros j Hj. simpl in Hj.
      assert (j = 0 \/ j = 1 \/ j = 2) as [->|[->| ->]] by lia; discriminate.
    + intros j Hj. simpl in Hj. lia.
Defined.

Lemma slot_Some_range p j v :
  slot p j = Some v ->
  0 <= j /\ (Z.to_nat j < List.length (Allocation p))%nat.
Proof.
  unfold slot. destruct (j <? 0) eqn:Hj; [discriminate|].
  intros H. apply lookup_lt_Some in H. lia.
Qed.

Lemma four_bytes (l : list Z) :
  List.length l = 4%nat -> exists a b c d, l = [a; b; c; d].
Proof.
  destruct l as [|a [|b [|c [|d [|e l]]]]]; try discriminate. eauto.
Qed.

(** X5.  What a successful [AllocateIP] returns: the four bytes parsed
    from [CidrRange], the last one advanced by [i + 1], both taken modulo
    256, where [i] is a slot that was free and is allocated afterwards; no
    other slot changes. *)
Theorem AllocateIP_success_address p ip p' :
  AllocateIP p = (Done (Ok ip), p') ->
  exists a b c d i,
    Net.To4 (Net.ParseIP (CidrRange p)) = Some [a; b; c; d] /\
    ip = [a; b; c; (d + (i + 1) mod 256) mod 256] /\
    slot p i = Some 0 /\ slot p' i = Some 1 /\
    Allocation p' = <[Z.to_nat i := 1]> (Allocation p).
Proof.
  intros Ha. apply AllocateIP_address in Ha as (base & i & Hb & -> & Hi & Hp').
  destruct (four_bytes base (To4_length _ _ Hb)) as (a & b & c & d & ->).
  exists a, b, c, d, i. repeat split; try assumption.
  destruct (slot_Some_range _ _ _ Hi) as [Hi0 Hlen].
  rewrite slot_nonneg, Hp' by lia. apply list_lookup_insert_eq. exact Hlen.
Qed.

(** The first call on the pool whose [CidrRange] is "10.0.0.0". *)
Lemma AllocateIP_success_address_witness :
  exists a b c d i,
    Net.To4 (Net.ParseIP (CidrRange pool_plain)) = Some [a; b; c; d] /\
    [10; 0; 0; 1] = [a; b; c; (d + (i + 1) mod 256) mod 256] /\
    slot pool_plain i = Some 0 /\
    slot (set_slot pool_plain 0 1) i = Some 1 /\
    Allocation (set_slot pool_plain 0 1)
    = <[Z.to_nat i := 1]> (Allocation pool_plain).
Proof.
  exact (AllocateIP_success_address pool_plain [10; 0; 0; 1]
           (set_slot pool_plain 0 1) eq_refl).
Defined.

(** X6.  Two slots stand for the same address exactly when their indices
    differ by a multiple of 256: only the last byte of the address depends
    on the slot. *)
Theorem address_of_same_iff cidr base i j :
  Net.To4 (Net.ParseIP cidr) = Some base ->
  address_of cidr i = address_of cidr j <-> (i - j) mod 256 = 0.
Proof.
  intros Hb. unfold address_of. rewrite Hb.
  destruct (four_bytes base (To4_length _ _ Hb)) as (a & b & c & d & ->).
  unfold add_host. cbn.
  rewrite !Z.add_mod_idemp_r by lia.
  split.
  - intros [= H]. revert H. Z.div_mod_to_equations. lia.
  - intros H. do 5 f_equal. revert H. Z.div_mod_to_equations. lia.
Qed.

(** Slots 3 and 259 of "10.0.0.0" are both 10.0.0.4. *)
Lemma address_of_same_iff_witness :
  address_of "10.0.0.0" 259 = address_of "10.0.0.0" 3.
Proof.
  apply (address_of_same_iff "10.0.0.0" [10; 0; 0; 0] 259 3); reflexivity.
Defined.

Lemma binary_slot p j v : binary p -> slot p j = Some v -> v = 0 \/ v = 1.
Proof.
  unfold binary, slot. intros Hb. destruct (j <? 0); [discriminate|].
  intros H. eapply Forall_lookup_1 in Hb; eauto.
Qed.

Lemma wf_slot p j :
  wf p -> 0 <= j < TotalIps p -> exists v, slot p j = Some v.
Proof.
  intros [Hlen _] Hj. rewrite slot_nonneg by lia.
  destruct (Allocation p !! Z.to_nat j) as [v|] eqn:Hv; [eauto|].
  apply lookup_ge_None in Hv. lia.
Qed.

Lemma AllocateIP_mark p :
  wf p -> binary p -> above_mark_free p -> mark_in_use_or_empty p ->
  above_mark_free (snd (AllocateIP p)) /\
  mark_in_use_or_empty (snd (AllocateIP p)).
Proof.
  intros Hwf Hbin Habove Hmark. pose proof Hwf as [Hlen Hlast].
  unfold AllocateIP.
  destruct (LastAllocatedIP p >=? TotalIps p); [auto|].
  destruct (scan_down _ _) as [k| |] eqn:Hs; [| |auto].
  - apply scan_down_Found in Hs as (Hk & Hk0 & Hkmax).
    assert (Hklen : (Z.to_nat k < List.length (Allocation p))%nat)
      by (apply lookup_lt_Some in Hk0; exact Hk0).
    cbn [snd]. split.
    + intros j Hj. simpl in Hj.
      rewrite slot_set_slot_ne by lia. apply Habove, Hj.
    + unfold mark_in_use_or_empty. simpl LastAllocatedIP.
      destruct (Z.eq_dec k (LastAllocatedIP p)) as [->|Hne].
      * left. apply slot_set_slot_eq; [lia|exact Hklen].
      * left. rewrite slot_set_slot_ne by lia.
        destruct Hmark as [Hm|Hnone]; [exact Hm|exfalso].
        destruct (wf_slot p (LastAllocatedIP p) Hwf Hlast) as [v Hv].
        destruct (binary_slot _ _ _ Hbin Hv) as [->| ->];
          [|exact (Hnone _ Hv)].
        rewrite slot_nonneg in Hv by lia.
        apply (Hkmax (LastAllocatedIP p)); [lia|exact Hv].
  - destruct (scan_up _ _ _) as [k| |] eqn:Hu; [|auto|auto].
    apply scan_up_Found in Hu as (Hk & Hk0 & _).
    assert (Hklen : (Z.to_nat k < List.length (Allocation p))%nat)
      by (apply lookup_lt_Some in Hk0; exact Hk0).
    cbn [snd]. split.
    + intros j Hj. simpl in Hj.
      change (slot (set_last (set_slot p k 1) k) j)
        with (slot (set_slot p k 1) j).
      rewrite slot_set_slot_ne by lia. apply Habove. lia.
    + left. change (slot (set_slot p k 1) k = Some 1).
      apply slot_set_slot_eq; [lia|exact Hklen].
Qed.

Lemma ReleaseIP_mark p ip :
  wf p -> binary p -> above_mark_free p -> mark_in_use_or_empty p ->
  above_mark_free (snd (ReleaseIP p ip)) /\
  mark_in_use_or_empty (snd (ReleaseIP p ip)).
Proof.
  intros Hwf Hbin Habove Hmark. pose proof Hwf as [Hlen Hlast].
  unfold ReleaseIP.
  destruct ip as [bs|]; [|auto].
  destruct (Net.To4 (Some bs)) as [ip4|]; [|auto].
  destruct (ip4 !! 3%nat) as [b|]; [|auto]. cbv zeta.
  destruct (_ || _) eqn:Hrange; [auto|].
  apply orb_false_iff in Hrange as [Hlo Hhi].
  set (idx := b - 1) in *.
  assert (Hidx : 0 <= idx < TotalIps p) by lia.
  destruct (Allocation p !! Z.to_nat idx) as [v|] eqn:Hv; [|auto].
  destruct (v =? 0) eqn:Hv0; [auto|].
  assert (Hslot : slot p idx = Some 1).
  { rewrite slot_nonneg by lia. rewrite Hv. f_equal.
    assert (Hs : slot p idx = Some v) by (rewrite slot_nonneg by lia; exact Hv).
    destruct (binary_slot _ _ _ Hbin Hs) as [->| ->]; [discriminate|reflexivity]. }
  assert (Hilen : (Z.to_nat idx < List.length (Allocation p))%nat) by lia.
  assert (Hcleared : slot (set_slot p idx 0) idx = Some 0)
    by (apply slot_set_slot_eq; [lia|exact Hilen]).
  simpl LastAllocatedIP.
  destruct (idx =? LastAllocatedIP p) eqn:Heq.
  - apply Z.eqb_eq in Heq.
    replace (Z.to_nat (LastAllocatedIP p - 1 + 1)) with (Z.to_nat idx) by lia.
    destruct (walk_back _ _) as [k| |] eqn:Hw; cbn [snd].
    + apply walk_back_Found in Hw as (Hk & Hk1 & Hkmax).
      rewrite Z2Nat.id in * by lia. split.
      * intros j Hj. simpl in Hj.
        change (slot (set_last (set_slot p idx 0) k) j)
          with (slot (set_slot p idx 0) j).
        destruct (Z.lt_trichotomy j idx) as [Hlt|[->|Hgt]].
        -- rewrite slot_nonneg by lia. apply Hkmax. lia.
        -- rewrite Hcleared. discriminate.
        -- rewrite slot_set_slot_ne by lia. apply Habove. lia.
      * left. change (slot (set_slot p idx 0) k = Some 1).
        rewrite slot_nonneg by lia. exact Hk1.
    + pose proof (walk_back_NotFound _ _ Hw) as Hnone.
      rewrite Z2Nat.id in * by lia. split.
      * intros j Hj. simpl in Hj.
        rewrite slot_set_slot_ne by lia. apply Habove. lia.
      * right. intros j.
        destruct (Z.lt_trichotomy j idx) as [Hlt|[->|Hgt]].
        -- destruct (Z.lt_ge_cases j 0) as [Hneg|Hpos].
           ++ unfold slot. destruct (j <? 0) eqn:E; [discriminate|lia].
           ++ rewrite slot_nonneg by lia. apply Hnone. lia.
        -- rewrite Hcleared. discriminate.
        -- rewrite slot_set_slot_ne by lia. apply Habove. lia.
    + split.
      * intros j Hj. simpl in Hj.
        rewrite slot_set_slot_ne by lia. apply Habove. lia.
      * exfalso. revert Hw. apply walk_back_in_range. simpl.
        rewrite length_insert. lia.
  - apply Z.eqb_neq in Heq. cbn [snd]. split.
    + intros j Hj. simpl in Hj.
      destruct (Z.eq_dec j idx) as [->|Hne].
      * rewrite Hcleared. discriminate.
      * rewrite slot_set_slot_ne by lia. apply Habove, Hj.
    + destruct Hmark as [Hm|Hnone]; [|exfalso; exact (Hnone _ Hslot)].
      left. simpl LastAllocatedIP. rewrite slot_set_slot_ne by lia. exact Hm.
Qed.

(** X7.  In every pool that [NewIpPool] built and [AllocateIP] and
    [ReleaseIP] worked on, the mark bounds the allocated slots from above
    (no slot above it is allocated), and it sits on an allocated slot
    unless no slot at all is allocated. *)
Theorem reachable_mark p :
  reachable p -> above_mark_free p /\ mark_in_use_or_empty p.
Proof.
  induction 1 as [fs name cidr path p Hnew|p Hr IH|p ip Hr IH].
  - apply NewIpPool_Done in Hnew as (addr & n & _ & _ & ->).
    assert (Hfree : forall j,
              slot {| PoolName := name; CidrRange := cidr; Path := path;
                      Gateway := 0;
                      TotalIps := 2 ^ Net.mask_ones (Net.net_Mask n) - 3;
                      LastAllocatedIP := 0;
                      Allocation :=
                        replicate
                          (Z.to_nat (2 ^ Net.mask_ones (Net.net_Mask n) - 3))
                          0 |} j <> Some 1).
    { intros j. unfold slot. destruct (j <? 0); [discriminate|]. simpl.
      intros Hj. apply lookup_replicate_1 in Hj as [Hj _]. discriminate. }
    split; [intros j _; apply Hfree|right; exact Hfree].
  - destruct (reachable_inv p Hr) as (Hwf & Hbin & _).
    destruct IH. apply AllocateIP_mark; assumption.
  - destruct (reachable_inv p Hr) as (Hwf & Hbin & _).
    destruct IH. apply ReleaseIP_mark; assumption.
Qed.

(** On the pool with slots 0 and 2 allocated, the mark is on slot 2. *)
Lemma reachable_mark_witness :
  above_mark_free pool_two_used /\ mark_in_use_or_empty pool_two_used.
Proof. exact (reachable_mark pool_two_used pool_two_used_reachable). Defined.

(** What one call of [AllocateIP] can do: fail on its guard or for want of
    a free slot, the pool untouched, or mark one free slot [i], with or
    without moving the mark to it, and return what [address_of] makes of
    [i]. *)
Lemma AllocateIP_cases p r p' :
  AllocateIP p = (Done r, p') ->
  (r = Err NoMoreIPs /\ p' = p) \/
  (r = Err NoAvailableIPs /\ p' = p) \/
  exists i,
    r = address_of (CidrRange p) i /\ 0 <= i /\ slot p i = Some 0 /\
    (p' = set_slot p i 1 \/ p' = set_last (set_slot p i 1) i).
Proof.
  unfold AllocateIP.
  destruct (LastAllocatedIP p >=? TotalIps p); [intros [= <- <-]; auto|].
  destruct (scan_down _ _) as [k| |] eqn:Hs.
  - intros [= <- <-]. apply scan_down_Found in Hs as (Hk & Hk0 & _).
    right. right. exists k. rewrite slot_nonneg by lia.
    repeat split; auto; lia.
  - destruct (scan_up _ _ _) as [k| |] eqn:Hu; try discriminate.
    + intros [= <- <-]. pose proof (scan_up_start _ _ _ _ Hu).
      apply scan_up_Found in Hu as (Hk & Hk0 & _).
      right. right. exists k. rewrite slot_nonneg by lia.
      repeat split; auto; lia.
    + intros [= <- <-]. auto.
  - discriminate.
Qed.

(** X9.  A failed [AllocateIP] is not always without effect.  When it
    fails on the parse of [CidrRange], a slot that was free has been marked
    allocated and stays so; when it fails on its guard or for want of a
    free slot, the pool is as before. *)
Theorem AllocateIP_error_effect p e p' :
  AllocateIP p = (Done (Err e), p') ->
  match e with
  | InvalidCIDR c =>
      c = CidrRange p /\
      exists i, slot p i = Some 0 /\ slot p' i = Some 1 /\
                Allocation p' = <[Z.to_nat i := 1]> (Allocation p)
  | NoMoreIPs | NoAvailableIPs => p' = p
  end.
Proof.
  intros Ha. apply AllocateIP_cases in Ha as [[[= ->] ->]|[[[= ->] ->]|Hi]];
    [reflexivity|reflexivity|].
  destruct Hi as (i & Hr & Hi0 & Hfree & Hp').
  unfold address_of in Hr. destruct (Net.To4 _); [discriminate|].
  injection Hr as ->. split; [reflexivity|]. exists i.
  destruct (slot_Some_range _ _ _ Hfree) as [_ Hlen].
  assert (Hone : slot (set_slot p i 1) i = Some 1)
    by (apply slot_set_slot_eq; assumption).
  destruct Hp' as [-> | ->]; auto.
Qed.

(** The first call on a pool [NewIpPool] built: it fails and slot 0 is
    taken. *)
Lemma AllocateIP_error_effect_witness :
  exists i, slot pool_fresh i = Some 0 /\
            slot (set_slot pool_fresh 0 1) i = Some 1 /\
            Allocation (set_slot pool_fresh 0 1)
            = <[Z.to_nat i := 1]> (Allocation pool_fresh).
Proof.
  exact (proj2 (AllocateIP_error_effect pool_fresh (InvalidCIDR "10.0.0.0/3")
                  (set_slot pool_fresh 0 1) eq_refl)).
Defined.

Lemma reachable_call_fails p :
  reachable p ->
  fst (AllocateIP p) = Done (Err (InvalidCIDR (CidrRange p))) \/
  fst (AllocateIP p) = Done (Err NoAvailableIPs).
Proof.
  intros Hr. destruct (reachable_inv p Hr) as ([Hlen Hlast] & _ & _ & _ & Hip).
  unfold AllocateIP.
  destruct (LastAllocatedIP p >=? TotalIps p) eqn:Hg; [lia|].
  destruct (scan_down _ _) as [k| |] eqn:Hs; cbn [fst].
  - rewrite address_of_unparsable by assumption. auto.
  - destruct (scan_up _ _ _) as [k| |] eqn:Hu; cbn [fst].
    + rewrite address_of_unparsable by assumption. auto.
    + auto.
    + exfalso. revert Hu. apply scan_up_in_range; lia.
  - exfalso. revert Hs. apply scan_down_in_range. lia.
Qed.

Lemma pool_fresh_reachable : reachable pool_fresh.
Proof.
  apply (reach_new open_fs "net" "10.0.0.0/3" "/var/lib/cni"). reflexivity.
Qed.

(** X10.  However many times [AllocateIP] is called on a pool that
    [NewIpPool] built, whatever releases came before, every call fails:
    with the parse error on the pool's own CIDR text as long as a slot is
    left to mark, with the want of a free slot afterwards.  No call panics
    and none returns an address. *)
Theorem constructor_pool_calls_fail n : forall p,
  reachable p ->
  Forall (fun r => r = Done (Err (InvalidCIDR (CidrRange p))) \/
                   r = Done (Err NoAvailableIPs))
         (fst (allocate_n n p)).
Proof.
  induction n as [|n IH]; intros p Hr; [constructor|]. simpl.
  pose proof (reachable_call_fails p Hr) as Hcall.
  pose proof (reach_allocate p Hr) as Hr1.
  destruct (reachable_inv p Hr) as (Hwf & Hbin & _).
  destruct (AllocateIP_keeps p Hwf Hbin) as (_ & _ & _ & Hcidr & _).
  destruct (AllocateIP p) as [r p1]. simpl in *.
  specialize (IH p1 Hr1). rewrite Hcidr in IH.
  destruct (allocate_n n p1) as [rs p2]. simpl in *.
  constructor; assumption.
Qed.

(** Six calls on a fresh pool of five slots. *)
Lemma constructor_pool_calls_fail_witness :
  Forall (fun r => r = Done (Err (InvalidCIDR "10.0.0.0/3")) \/
                   r = Done (Err NoAvailableIPs))
         (fst (allocate_n 6 pool_fresh)).
Proof. exact (constructor_pool_calls_fail 6 pool_fresh pool_fresh_reachable). Defined.

Lemma allocate_n_S_snd n p :
  snd (allocate_n (S n) p) = snd (allocate_n n (snd (AllocateIP p))).
Proof.
  simpl. destruct (AllocateIP p) as [r p1]. simpl.
  destruct (allocate_n n p1) as [rs p2]. reflexivity.
Qed.

Lemma allocate_n_last n : forall p,
  snd (allocate_n (S n) p) = snd (AllocateIP (snd (allocate_n n p))).
Proof.
  induction n as [|n IH]; intros p.
  - rewrite allocate_n_S_snd. reflexivity.
  - rewrite allocate_n_S_snd, IH, <- allocate_n_S_snd. reflexivity.
Qed.

Lemma filled_lookup_lt n k j :
  (j < k)%nat -> (k <= n)%nat -> filled n k !! j = Some 1.
Proof.
  intros Hj Hk. unfold filled.
  rewrite lookup_app_l by (rewrite length_replicate; lia).
  apply lookup_replicate_2. lia.
Qed.

Lemma filled_lookup_ge n k j :
  (k <= j < n)%nat -> filled n k !! j = Some 0.
Proof.
  intros Hj. unfold filled.
  rewrite lookup_app_r by (rewrite length_replicate; lia).
  rewrite length_replicate. apply lookup_replicate_2. lia.
Qed.

Lemma length_filled n k : (k <= n)%nat -> List.length (filled n k) = n.
Proof.
  intros Hk. unfold filled. rewrite length_app, !length_replicate. lia.
Qed.

Lemma insert_filled n k :
  (k < n)%nat -> <[k := 1]> (filled n k) = filled n (S k).
Proof.
  intros Hk. unfold filled.
  rewrite insert_app_r_alt by (rewrite length_replicate; lia).
  rewrite length_replicate, Nat.sub_diag.
  replace (n - k)%nat with (S (n - S k)) by lia.
  rewrite (replicate_S_end k 1), <- app_assoc. reflexivity.
Qed.

(** One more call on a pool whose first [k] slots are allocated, and no
    other, with the mark where [k] calls leave it. *)
Lemma fill_step p k :
  wf p ->
  (k < Z.to_nat (TotalIps p))%nat ->
  Allocation p = filled (Z.to_nat (TotalIps p)) k ->
  LastAllocatedIP p = Z.max 0 (Z.of_nat k - 1) ->
  wf (snd (AllocateIP p)) /\
  TotalIps (snd (AllocateIP p)) = TotalIps p /\
  Allocation (snd (AllocateIP p)) = filled (Z.to_nat (TotalIps p)) (S k) /\
  LastAllocatedIP (snd (AllocateIP p)) = Z.of_nat k.
Proof.
  intros Hwf Hk Ha Hl. pose proof Hwf as [Hlen Hlast].
  set (n := Z.to_nat (TotalIps p)) in *.
  assert (Hslot : forall j, 0 <= j ->
            slot p j = filled n k !! Z.to_nat j).
  { intros j Hj. rewrite slot_nonneg, Ha by lia. reflexivity. }
  destruct k as [|k].
  - rewrite (AllocateIP_reverse p 0 Hwf).
    + cbn [snd]. split; [apply set_slot_wf, Hwf|].
      split; [reflexivity|]. split; [|simpl; lia].
      simpl. rewrite Ha. apply (insert_filled n 0). lia.
    + lia.
    + rewrite Hslot by lia. apply filled_lookup_ge. lia.
    + intros j Hj. lia.
  - rewrite (AllocateIP_forward p (Z.of_nat (S k)) Hwf).
    + cbn [snd]. split.
      { split; simpl; [rewrite length_insert; exact Hlen|lia]. }
      split; [reflexivity|]. split; [|reflexivity].
      simpl. rewrite Ha, Nat2Z.id. apply insert_filled. lia.
    + intros j Hj. rewrite Hslot, filled_lookup_lt by lia. discriminate.
    + lia.
    + rewrite Hslot, Nat2Z.id by lia. apply filled_lookup_ge. lia.
    + intros j Hj. lia.
Qed.

Lemma fills_inv fs name cidr path p k :
  NewIpPool fs name cidr path = Done p ->
  Z.of_nat k <= TotalIps p ->
  wf (snd (allocate_n k p)) /\
  TotalIps (snd (allocate_n k p)) = TotalIps p /\
  Allocation (snd (allocate_n k p)) = filled (Z.to_nat (TotalIps p)) k /\
  LastAllocatedIP (snd (allocate_n k p)) = Z.max 0 (Z.of_nat k - 1).
Proof.
  intros Hnew. assert (Hr : reachable p) by (eapply reach_new, Hnew).
  destruct (reachable_inv p Hr) as (Hwf & _ & _ & Htot & _).
  apply NewIpPool_Done in Hnew as (addr & m & _ & _ & Hp).
  induction k as [|k IH]; intros Hk.
  - simpl. split; [exact Hwf|]. split; [reflexivity|].
    rewrite Hp. simpl. unfold filled. simpl. rewrite Nat.sub_0_r.
    split; reflexivity.
  - destruct IH as (Hwfk & Htk & Hak & Hlk); [lia|].
    rewrite allocate_n_last.
    destruct (fill_step (snd (allocate_n k p)) k Hwfk) as (H1 & H2 & H3 & H4).
    + rewrite Htk. lia.
    + rewrite Htk. exact Hak.
    + exact Hlk.
    + rewrite Htk in *. repeat split; try assumption; try apply H1. lia.
Qed.

(** X8.  A pool fresh from [NewIpPool] is filled from slot 0 upwards:
    after [k] calls of [AllocateIP] (as many as the pool has slots, at
    most) exactly the first [k] slots are allocated and the mark is on the
    last of them; once all are, a further call fails for want of a free
    slot and changes nothing. *)
Theorem fresh_pool_fills_in_order fs name cidr path p k :
  NewIpPool fs name cidr path = Done p ->
  Z.of_nat k <= TotalIps p ->
  Allocation (snd (allocate_n k p)) = filled (Z.to_nat (TotalIps p)) k /\
  LastAllocatedIP (snd (allocate_n k p)) = Z.max 0 (Z.of_nat k - 1) /\
  (Z.of_nat k = TotalIps p ->
   AllocateIP (snd (allocate_n k p))
   = (Done (Err NoAvailableIPs), snd (allocate_n k p))).
Proof.
  intros Hnew Hk.
  destruct (fills_inv fs name cidr path p k Hnew Hk) as (Hwf & Ht & Ha & Hl).
  split; [exact Ha|]. split; [exact Hl|]. intros Hfull.
  apply AllocateIP_exhausted; [exact Hwf|].
  intros j Hj. rewrite Ht in Hj. rewrite slot_nonneg, Ha by lia.
  rewrite filled_lookup_lt by lia. discriminate.
Qed.

(** Five calls on a fresh pool of five slots. *)
Lemma fresh_pool_fills_in_order_witness :
  Allocation (snd (allocate_n 5 pool_fresh)) = [1; 1; 1; 1; 1] /\
  LastAllocatedIP (snd (allocate_n 5 pool_fresh)) = 4 /\
  AllocateIP (snd (allocate_n 5 pool_fresh))
  = (Done (Err NoAvailableIPs), snd (allocate_n 5 pool_fresh)).
Proof.
  destruct (fresh_pool_fills_in_order open_fs "net" "10.0.0.0/3"
              "/var/lib/cni" pool_fresh 5 eq_refl)
    as (Ha & Hl & Hfull); [simpl; lia|].
  split; [exact Ha|]. split; [exact Hl|]. apply Hfull. reflexivity.
Defined.

(** The release of an allocated slot through any IPv4 address whose last
    byte is the slot's index plus one. *)
Lemma ReleaseIP_clears p ip ip4 i v :
  List.length (Allocation p) = Z.to_nat (TotalIps p) ->
  Net.To4 ip = Some ip4 -> ip4 !! 3%nat = Some (i + 1) ->
  0 <= i < TotalIps p ->
  Allocation p !! Z.to_nat i = Some v -> v <> 0 ->
  exists p',
    ReleaseIP p ip = (Done None, p') /\
    Allocation p' = <[Z.to_nat i := 0]> (Allocation p) /\
    (i <> LastAllocatedIP p -> p' = set_slot p i 0).
Proof.
  intros Hlen H4 Hb Hi Hv Hv0.
  destruct (To4_Some_not_nil _ _ H4) as [bs ->].
  unfold ReleaseIP. rewrite H4, Hb. cbv zeta.
  replace (i + 1 - 1) with i by lia.
  destruct ((i <? 0) || (i >=? TotalIps p)) eqn:Hrange.
  { apply orb_true_iff in Hrange as [H|H]; lia. }
  rewrite Hv. destruct (v =? 0) eqn:E; [lia|].
  simpl LastAllocatedIP.
  destruct (i =? LastAllocatedIP p) eqn:Heq.
  - apply Z.eqb_eq in Heq.
    destruct (walk_back _ _) as [k| |] eqn:Hw.
    + eexists. split; [reflexivity|]. split; [reflexivity|]. intros; lia.
    + eexists. split; [reflexivity|]. split; [reflexivity|]. intros; lia.
    + exfalso. revert Hw. apply walk_back_in_range. simpl.
      rewrite length_insert. lia.
  - apply Z.eqb_neq in Heq.
    eexists. split; [reflexivity|]. split; reflexivity.
Qed.

(** X11.  Where [CidrRange] is the text of an address whose last byte is
    0 and the pool has at most 255 slots, the address a successful
    [AllocateIP] returns is one [ReleaseIP] accepts, and releasing it gives
    the bitmap back as it was before the allocation. *)
Theorem release_of_allocated_address p ip p' a b c :
  wf p -> TotalIps p <= 255 ->
  Net.To4 (Net.ParseIP (CidrRange p)) = Some [a; b; c; 0] ->
  AllocateIP p = (Done (Ok ip), p') ->
  exists p'',
    ReleaseIP p' (Some ip) = (Done None, p'') /\
    Allocation p'' = Allocation p.
Proof.
  intros [Hlen Hlast] Hsmall Hbase Ha.
  apply AllocateIP_cases in Ha as [[[=] _]|[[[=] _]|Hi]].
  destruct Hi as (i & Hr & Hi0 & Hfree & Hp').
  destruct (slot_Some_range _ _ _ Hfree) as [_ Hilen].
  rewrite slot_nonneg in Hfree by lia.
  unfold address_of in Hr. rewrite Hbase in Hr. injection Hr as ->.
  assert (Hbyte : add_host [a; b; c; 0] i = [a; b; c; i + 1]).
  { unfold add_host. change ([a; b; c; 0] !! 3%nat) with (Some 0).
    cbv beta iota.
    replace ((0 + (i + 1) mod 256) mod 256) with (i + 1); [reflexivity|].
    rewrite Z.add_0_l, Z.mod_mod by lia. symmetry. apply Z.mod_small. lia. }
  rewrite Hbyte.
  assert (Hmarked : Allocation p' = <[Z.to_nat i := 1]> (Allocation p) /\
                    TotalIps p' = TotalIps p).
  { destruct Hp' as [-> | ->]; split; reflexivity. }
  destruct Hmarked as [Hap' Htp'].
  destruct (ReleaseIP_clears p' (Some [a; b; c; i + 1]) [a; b; c; i + 1] i 1)
    as (p'' & Hrel & Hap'' & _).
  - rewrite Hap', Htp', length_insert. exact Hlen.
  - reflexivity.
  - reflexivity.
  - lia.
  - rewrite Hap'. apply list_lookup_insert_eq. exact Hilen.
  - discriminate.
  - exists p''. split; [exact Hrel|].
    rewrite Hap'', Hap', list_insert_insert_eq.
    apply list_insert_id. exact Hfree.
Qed.

(** The first address of the pool whose [CidrRange] is "10.0.0.0",
    allocated and released. *)
Lemma release_of_allocated_address_witness :
  exists p'',
    ReleaseIP (set_slot pool_plain 0 1) (Some [10; 0; 0; 1])
    = (Done None, p'') /\
    Allocation p'' = Allocation pool_plain.
Proof.
  apply (release_of_allocated_address pool_plain [10; 0; 0; 1]
           (set_slot pool_plain 0 1) 10 0 0).
  - split; [reflexivity|simpl; lia].
  - simpl. lia.
  - reflexivity.
  - reflexivity.
Defined.

Lemma set_slot_back p j v :
  Allocation p !! Z.to_nat j = Some v ->
  set_slot (set_slot p j 0) j v = p.
Proof.
  intros Hv. destruct p as [n c pa g t l a]. unfold set_slot. simpl in *.
  rewrite list_insert_insert_eq, list_insert_id by exact Hv. reflexivity.
Qed.

(** X12.  Releasing an allocated slot [j] below the mark and allocating
    again, with no free slot between [j] and the mark, gives back the very
    pool one started from: the second call takes slot [j] again and the
    mark has not moved. *)
Theorem release_then_allocate_restores p ip ip4 j :
  wf p ->
  0 <= j < LastAllocatedIP p ->
  slot p j = Some 1 ->
  (forall k, j < k <= LastAllocatedIP p -> slot p k <> Some 0) ->
  Net.To4 ip = Some ip4 -> ip4 !! 3%nat = Some (j + 1) ->
  exists p1,
    ReleaseIP p ip = (Done None, p1) /\
    slot p1 j = Some 0 /\
    AllocateIP p1 = (Done (address_of (CidrRange p) j), p).
Proof.
  intros Hwf Hj Hused Hbetween H4 Hb. pose proof Hwf as [Hlen Hlast].
  rewrite slot_nonneg in Hused by lia.
  destruct (ReleaseIP_clears p ip ip4 j 1 Hlen H4 Hb) as (p1 & Hrel & _ & Hp1);
    [lia|exact Hused|discriminate|].
  rewrite Hp1 in * by lia. clear Hp1.
  assert (Hjlen : (Z.to_nat j < List.length (Allocation p))%nat)
    by (apply lookup_lt_Some in Hused; exact Hused).
  assert (Hfree : slot (set_slot p j 0) j = Some 0)
    by (apply slot_set_slot_eq; [lia|exact Hjlen]).
  eexists. split; [exact Hrel|]. split; [exact Hfree|].
  rewrite (AllocateIP_reverse (set_slot p j 0) j).
  - rewrite set_slot_back by exact Hused. reflexivity.
  - apply set_slot_wf, Hwf.
  - simpl. lia.
  - exact Hfree.
  - intros k Hk. simpl in Hk. rewrite slot_set_slot_ne by lia.
    apply Hbetween, Hk.
Qed.

(** Slot 0 of the pool with slots 0, 1, 2 allocated, released through
    10.0.0.1 and taken again. *)
Lemma release_then_allocate_restores_witness :
  exists p1,
    ReleaseIP pool_three_used (Some [10; 0; 0; 1]) = (Done None, p1) /\
    slot p1 0 = Some 0 /\
    AllocateIP p1
    = (Done (address_of (CidrRange pool_three_used) 0), pool_three_used).
Proof.
  apply (release_then_allocate_restores pool_three_used
           (Some [10; 0; 0; 1]) [10; 0; 0; 1] 0).
  - split; [reflexivity|simpl; lia].
  - simpl. lia.
  - reflexivity.
  - intros k Hk. simpl in Hk.
    assert (k = 1 \/ k = 2) as [->| ->] by lia; discriminate.
  - reflexivity.
  - reflexivity.
Defined.

Lemma Unmarshal_Marshal_any p q :
  Forall (fun b => 0 <= b < 256) (Allocation p) ->
  fits_int (Gateway p) = true ->
  fits_int (TotalIps p) = true ->
  fits_int (LastAllocatedIP p) = true ->
  Unmarshal (Marshal p) q
  = ({| PoolName := PoolName p; CidrRange := CidrRange p; Path := Path p;
        Gateway := if Gateway p =? 0 then Gateway q else Gateway p;
        TotalIps := TotalIps p; LastAllocatedIP := LastAllocatedIP p;
        Allocation := match Allocation p with
                      | [] => Allocation q
                      | _ => Allocation p
                      end |}, true).
Proof.
  intros Hbytes Hg Ht Hl. unfold Marshal.
  apply Base64_roundtrip in Hbytes.
  destruct (Allocation p) as [|b bs] eqn:Ha;
    destruct (Gateway p =? 0);
    cbn -[Base64.encode Base64.decode fits_int];
    rewrite ?Hg, Ht, Hl, ?Hbytes; reflexivity.
Qed.

(** X13.  What [Load] gives after a [Save] that succeeded, for any pool
    with byte-sized slots whose name, CIDR text and path are valid UTF-8:
    the target takes the saved name, CIDR text, path, total and mark; but a
    gateway index of 0 and a bitmap of length 0 are not written
    ([omitempty]), and for them the target keeps the value it had before
    the [Load]. *)
Theorem Save_Load_keeps_omitted p q fs :
  Utf8.ValidString (PoolName p) = true ->
  Utf8.ValidString (CidrRange p) = true ->
  Utf8.ValidString (Path p) = true ->
  write_ok fs (pool_file p) = true ->
  PoolName q = PoolName p -> Path q = Path p ->
  Forall (fun b => 0 <= b < 256) (Allocation p) ->
  fits_int (Gateway p) = true ->
  fits_int (TotalIps p) = true ->
  fits_int (LastAllocatedIP p) = true ->
  fst (Save p fs) = None /\
  snd (Load q (snd (Save p fs)))
  = {| PoolName := PoolName p; CidrRange := CidrRange p; Path := Path p;
       Gateway := if Gateway p =? 0 then Gateway q else Gateway p;
       TotalIps := TotalIps p; LastAllocatedIP := LastAllocatedIP p;
       Allocation := match Allocation p with
                     | [] => Allocation q
                     | _ => Allocation p
                     end |} /\
  fst (Load q (snd (Save p fs))) = None.
Proof.
  intros _ _ _ Hw Hname Hpath Hbytes Hg Ht Hl.
  unfold Save. rewrite Hw. split; [reflexivity|].
  unfold Load. cbn [snd files].
  replace (pool_file q) with (pool_file p)
    by (unfold pool_file; rewrite Hname, Hpath; reflexivity).
  rewrite lookup_insert_eq, Unmarshal_Marshal_any by assumption.
  split; reflexivity.
Qed.

(** A pool object without bitmap, saved and loaded into a pool that has a
    bitmap and a gateway index: both survive the [Load]. *)
Lemma Save_Load_keeps_omitted_witness :
  snd (Load pool_with_gateway (snd (Save pool_without_bitmap open_fs)))
  = {| PoolName := "net"; CidrRange := "10.0.0.0/3"; Path := "/var/lib/cni";
       Gateway := 7; TotalIps := 5; LastAllocatedIP := 0;
       Allocation := [1; 1; 0; 0; 0] |}.
Proof.
  apply (Save_Load_keeps_omitted pool_without_bitmap pool_with_gateway
           open_fs); try reflexivity.
  constructor.
Defined.

Import Netlink Main.

(** * [cmdAdd] *)

(** Case analysis on the innermost scrutinee of the goal. *)
Ltac step :=
  match goal with
  | |- context [match ?x with _ => _ end] =>
      lazymatch x with
      | context [match _ with _ => _ end] => fail
      | _ => destruct x eqn:?
      end
  end.

(** Runs [cmdAdd] on an arbitrary host: one goal per path through the
    function, with the calls made so far as an explicit list. *)
Ltac run_cmdAdd :=
  unfold performed, cmdAdd, strip, NewIpPool, Save, LinkByName, call, Load,
    AllocateIP, Encode, bind, ret, panic;
  cbn beta iota;
  match goal with
  | |- context [pkg.NewIpPool ?f ?n ?c ?p] =>
      let Hnew := fresh "Hnew" in
      destruct (pkg.NewIpPool f n c p) as [pool| |] eqn:Hnew;
      [ let Hgw := fresh "Hgw" in
        assert (Hgw : Net.ParseIP c = None)
          by (apply NewIpPool_Done in Hnew as (? & ? & Hnew & _);
              exact (ParseIP_of_CIDR _ _ Hnew));
        rewrite Hgw
      | | ]
  end;
  cbn [fst snd trace fs stdout];
  repeat (step; cbn [fst snd trace fs stdout]);
  rewrite <- ?app_assoc; cbn [app];
  rewrite ?drop_app_length, ?drop_all.


(** Splits [tr !! i = Some e], [tr] an explicit list, into one goal per
    event and closes the goal for [i] past the end. *)
Ltac each_event Hi i :=
  repeat (destruct i as [|i]; simpl in Hi;
          [first [discriminate Hi|injection Hi as <-]|try discriminate Hi]).

(** Splits [Forall P tr], [tr] an explicit list, into one goal per event. *)
Ltac all_events :=
  repeat match goal with
         | |- Forall _ (_ :: _) => constructor
         | |- Forall _ [] => constructor
         end.

Ltac not_this HQ :=
  first [ destruct HQ as (? & ? & ? & HQ); discriminate HQ
        | destruct HQ as (? & ? & HQ); discriminate HQ ].

(** No run of [cmdAdd] assigns an address: the gateway text has passed
    [net.ParseCIDR] inside [NewIpPool], so [net.ParseIP] rejects it and the
    function returns before its first [AddrAdd]. *)
Lemma cmdAdd_never_assigns (h : Host) config env s :
  Forall (fun e => ~ assigns_address e) (performed h config env s).
Proof.
  run_cmdAdd; all_events; intros HQ; not_this HQ.
Qed.

(** No run of [cmdAdd] ends in success. *)
Lemma cmdAdd_never_succeeds (h : Host) config env s :
  fst (cmdAdd h config env s) <> Done None.
Proof. run_cmdAdd; discriminate. Qed.

(** No run of [cmdAdd] adds a bridge link. *)
Lemma cmdAdd_never_creates_bridge (h : Host) config env s :
  Forall (fun e => ~ creates_bridge e) (performed h config env s).
Proof.
  run_cmdAdd; all_events; intros (lk & res & HQ & Hk); try discriminate HQ.
  all: injection HQ as <- _; discriminate Hk.
Qed.

(** C8, on a host where the container end of the pair is not found once
    the pair is made.  [cmdAdd] overwrites the error of that lookup without
    a test, hands [LinkSetNsPid] the nil link and panics: the move into the
    namespace has failed and no error is returned.  The run ends after the
    failed lookup, the process ends with status 2 and no error document is
    written.  (The lookup of the peer, three lines further, tests its
    error and returns it.) *)
Theorem cmdAdd_lost_container_link :
  fst (cmdAdd host_losing_link config_slash8 add_env start) = Panic /\
  performed host_losing_link config_slash8 add_env start
  = [Looked "cni0" (Ok (link_named "cni0"));
     Called (LinkAdd (veth_pair config_slash8 add_env)) None;
     Looked "eth0" (Err "Link not found")] /\
  status (fst (main host_losing_link start)) = 2 /\
  written host_losing_link start = [].
Proof. vm_compute. repeat split. Qed.

(** Whenever the lookup of the bridge fails, [cmdAdd] stops there: it
    returns the lookup error and has made no other call. *)
Lemma cmdAdd_bridge_lookup_fails (h : Host) config env s pool cause :
  pkg.NewIpPool (fs s) (Subnet config) (Gateway config) (Path env) = Done pool ->
  link_by_name h (trace s) (Bridge config) = Err cause ->
  fst (cmdAdd h config env s)
  = Done (Some (GetBridgeFailed (Bridge config) cause)) /\
  performed h config env s = [Looked (Bridge config) (Err cause)].
Proof.
  intros Hpool Hlook.
  unfold performed, cmdAdd, strip, NewIpPool, Save, LinkByName, call, bind, ret.
  cbn beta iota. rewrite Hpool.
  destruct (pkg.Save pool (fs s)) as [e fs'].
  cbn [fst snd trace fs stdout]. rewrite Hlook.
  cbn [fst snd trace fs stdout]. rewrite drop_app_length. auto.
Qed.

(** C2, on a host without the bridge.  The lookup of "cni0" fails, and
    [cmdAdd] returns that failure: the only netlink call made is the
    lookup, no bridge is added or brought up, and the process exits with
    status 1. *)
Theorem cmdAdd_absent_bridge :
  fst (cmdAdd host_without_bridge config_slash8 add_env start)
  = Done (Some (GetBridgeFailed "cni0" "Link not found")) /\
  trace (snd (cmdAdd host_without_bridge config_slash8 add_env start))
  = [Looked "cni0" (Err "Link not found")] /\
  status (fst (main host_without_bridge start)) = 1.
Proof. vm_compute. repeat split. Qed.

(** With the gateway written as in the README ("10.0.0.1"), [NewIpPool]
    ends the process before any netlink call, on every host. *)
Lemma cmdAdd_readme_config_exits (h : Host) env s :
  cmdAdd h config_readme env s = (Exit 1, s).
Proof.
  unfold cmdAdd, NewIpPool, bind, pkg.NewIpPool. cbn [Subnet Gateway config_readme].
  destruct (_ || _); reflexivity.
Qed.

(** * [main] *)

(** C9.  When the command is VERSION and standard output takes the write,
    [main] returns normally (exit status 0) having written one document,
    the version result with the three supported versions; no other
    environment variable, set or unset, and no configuration on standard
    input matters, and nothing else changes. *)
Theorem main_VERSION (h : Host) s :
  getenv h !! "CNI_COMMAND" = Some "VERSION" ->
  stdout_ok h = true ->
  main h s
  = (Done tt,
     {| fs := fs s; trace := trace s;
        stdout := stdout s
                  ++ [OutVersion
                        {| ver_CNIVersion := "1.1.0";
                           SupportedVersions := ["0.4.0"; "1.0.0"; "1.1.0"] |}]
     |}) /\
  status (fst (main h s)) = 0.
Proof.
  intros Hcmd Hout.
  assert (Hmain : main h s
    = (Done tt,
       {| fs := fs s; trace := trace s;
          stdout := stdout s
                    ++ [OutVersion
                          {| ver_CNIVersion := "1.1.0";
                             SupportedVersions := ["0.4.0"; "1.0.0"; "1.1.0"] |}]
       |})).
  { unfold main, validateEnvironment, getEnvironment, Getenv.
    cbn [Command ContainerID NetNS IfName]. rewrite Hcmd.
    cbn. unfold cmdVersion, Encode, bind, ret. rewrite Hout. reflexivity. }
  rewrite Hmain. split; reflexivity.
Qed.

(** A host whose only environment variable is the command. *)
Lemma main_VERSION_witness :
  status (fst (main version_host start)) = 0 /\
  stdout (snd (main version_host start))
  = [OutVersion {| ver_CNIVersion := "1.1.0";
                   SupportedVersions := ["0.4.0"; "1.0.0"; "1.1.0"] |}].
Proof.
  destruct (main_VERSION version_host start eq_refl eq_refl) as [Hmain Hst].
  split; [exact Hst|]. rewrite Hmain. reflexivity.
Defined.

(** * Beyond the claims: the command handlers *)

Lemma NewIpPool_exit_code fs name cidr path c :
  pkg.NewIpPool fs name cidr path = Exit c -> c = 1.
Proof.
  unfold pkg.NewIpPool.
  destruct (_ || _); [intros [= <-]; reflexivity|].
  destruct (Net.ParseCIDR cidr) as [[addr n]|]; [|intros [= <-]; reflexivity].
  destruct (negb _); [intros [= <-]; reflexivity|].
  unfold Net.Size, pkg.make_bytes. destruct (_ <? 0); discriminate.
Qed.

(** How a run of [cmdAdd] can end: with an error returned, with the exit
    of [NewIpPool], or with a panic. *)
Lemma cmdAdd_ends (h : Host) config env s :
  (exists e, fst (cmdAdd h config env s) = Done (Some e)) \/
  fst (cmdAdd h config env s) = Exit 1 \/
  fst (cmdAdd h config env s) = Panic.
Proof.
  pose proof (NewIpPool_exit_code (fs s) (Subnet config) (Gateway config)
                (Path env)) as Hcode.
  revert Hcode. run_cmdAdd; intros Hcode; eauto.
  right. left. f_equal. apply Hcode. reflexivity.
Qed.

(** [cmdAdd] writes nothing to standard output: its only write is the
    result, behind the gateway test no run passes. *)
Lemma cmdAdd_stdout (h : Host) config env s :
  stdout (snd (cmdAdd h config env s)) = stdout s.
Proof. run_cmdAdd; reflexivity. Qed.


Lemma sendError_then_exit (h : Host) code msg details version s :
  exists out,
    bind (sendError h code msg details version) (fun _ => @exit unit 1) s
    = (Exit 1, {| fs := fs s; trace := trace s; stdout := stdout s ++ out |})
    /\ (stdout_ok h = true ->
        out = [OutError
                 {| err_CNIVersion :=
                      if String.eqb version "" then "1.1.0" else version;
                    Code := code; Msg := msg; err_Details := details |}])
    /\ (List.length out <= 1)%nat
    /\ Forall (fun o => o = error_document code msg details version) out.
Proof.
  unfold sendError, Encode, bind, ret, exit.
  destruct (stdout_ok h).
  - eexists [_]. split; [reflexivity|]. split; [reflexivity|].
    split; [simpl; lia|]. constructor; [|constructor].
    reflexivity.
  - exists []. destruct s. simpl. rewrite app_nil_r.
    split; [reflexivity|]. split; [discriminate|]. split; [simpl; lia|].
    constructor.
Qed.

(** X14.  An invocation with the command ADD never ends with status 0,
    whatever the host, the configuration and the state: it exits with
    status 1, or panics (status 2).  What it writes, if anything, is an
    error document and nothing else: code 4, "Invalid environment
    variables", with the error of [validateEnvironment]; or code 7,
    "Invalid network configuration", when standard input does not decode;
    or code 7, "Failed to add network", with the error [cmdAdd] returned
    and the version of the configuration. *)
Theorem main_ADD_never_succeeds (h : Host) s :
  Command (getEnvironment h) = "ADD" ->
  (status (fst (main h s)) = 1 \/ status (fst (main h s)) = 2) /\
  Forall (add_error_document h s) (written h s).
Proof.
  intros Hcmd. unfold written.
  destruct (main h s) as [o s'] eqn:Hm. cbn [fst snd].
  revert Hm. unfold main. cbv zeta.
  destruct (validateEnvironment (getEnvironment h)) as [e|] eqn:Hval.
  { destruct (sendError_then_exit h 4 "Invalid environment variables"
                (OfEnv e) "" s) as (out & -> & _ & _ & Hdoc).
    intros [= <- <-]. cbn [stdout]. rewrite drop_app_length.
    split; [auto|]. eapply Forall_impl; [exact Hdoc|].
    intros d ->. left. exists e. auto. }
  rewrite Hcmd. cbn [String.eqb Ascii.eqb Bool.eqb andb].
  destruct (parseConfig h) as [config|] eqn:Hconf.
  2:{ destruct (sendError_then_exit h 7 "Invalid network configuration"
                  OfConfig "" s) as (out & -> & _ & _ & Hdoc).
      intros [= <- <-]. cbn [stdout]. rewrite drop_app_length.
      split; [auto|]. eapply Forall_impl; [exact Hdoc|].
      intros d ->. right. left. auto. }
  unfold bind at 1.
  pose proof (cmdAdd_stdout h config (getEnvironment h) s) as Hout.
  destruct (cmdAdd_ends h config (getEnvironment h) s) as [[e He]|[He|He]];
    destruct (cmdAdd h config (getEnvironment h) s) as [o1 s1] eqn:Hrun;
    simpl in He, Hout; subst o1;
    try (intros [= <- <-]; rewrite Hout, drop_all; auto).
  destruct (sendError_then_exit h 7 "Failed to add network" (OfAdd e)
              (CNIVersion config) s1) as (out & -> & _ & _ & Hdoc).
  intros [= <- <-]. cbn [stdout]. rewrite Hout, drop_app_length.
  split; [auto|]. eapply Forall_impl; [exact Hdoc|].
  intros d ->. right. right. exists config, e. rewrite Hrun. auto.
Qed.

(** On a host where every netlink call succeeds: the one document written
    carries the error of the gateway test. *)
Lemma main_ADD_never_succeeds_witness :
  (status (fst (main willing_host start)) = 1 \/
   status (fst (main willing_host start)) = 2) /\
  Forall (add_error_document willing_host start) (written willing_host start).
Proof. exact (main_ADD_never_succeeds willing_host start eq_refl). Defined.
Ltac by_sendError h s :=
  match goal with
  | |- context [bind (sendError h ?c ?m ?d ?v) _ ?st] =>
      let out := fresh "out" in
      let Hlen := fresh "Hlen" in
      destruct (sendError_then_exit h c m d v st) as (out & -> & _ & Hlen & _);
      intros [= _ <-]; cbn [stdout]
  end.

(** X15.  An invocation writes at most one document to standard output,
    after what was there: whatever the command, the environment, the
    configuration and the answers of the host. *)
Theorem main_writes_at_most_one_document (h : Host) s :
  exists out,
    stdout (snd (main h s)) = stdout s ++ out /\ (List.length out <= 1)%nat.
Proof.
  destruct (main h s) as [o s'] eqn:Hm. cbn [snd].
  revert Hm. unfold main. cbv zeta.
  destruct (validateEnvironment (getEnvironment h)).
  { by_sendError h s. eauto. }
  destruct (String.eqb (Command (getEnvironment h)) "VERSION").
  { unfold cmdVersion, Encode, bind at 1, ret.
    destruct (stdout_ok h).
    - intros [= _ <-]. cbn [stdout]. eexists [_]. split; [reflexivity|].
      simpl. lia.
    - by_sendError h s. eauto. }
  destruct (parseConfig h) as [config|]; [|by_sendError h s; eauto].
  destruct (String.eqb (Command (getEnvironment h)) "ADD").
  { unfold bind at 1.
    pose proof (cmdAdd_stdout h config (getEnvironment h) s) as Hout.
    destruct (cmdAdd h config (getEnvironment h) s) as [[[e|]|c|] s1];
      cbn [snd] in Hout.
    - by_sendError h s1. rewrite Hout. eauto.
    - intros [= _ <-]. exists []. rewrite app_nil_r. split; [exact Hout|].
      simpl. lia.
    - intros [= _ <-]. exists []. rewrite app_nil_r. split; [exact Hout|].
      simpl. lia.
    - intros [= _ <-]. exists []. rewrite app_nil_r. split; [exact Hout|].
      simpl. lia. }
  destruct (String.eqb (Command (getEnvironment h)) "DEL").
  { unfold cmdDel, bind, ret. intros [= _ <-]. exists [].
    rewrite app_nil_r. split; [reflexivity|]. simpl. lia. }
  destruct (String.eqb (Command (getEnvironment h)) "CHECK").
  { unfold cmdCheck, Encode, bind at 1, bind at 1, ret.
    destruct (stdout_ok h).
    - intros [= _ <-]. cbn [stdout]. eexists [_]. split; [reflexivity|].
      simpl. lia.
    - by_sendError h s. eauto. }
  by_sendError h s. eauto.
Qed.

Lemma validate_complete (h : Host) :
  Command (getEnvironment h) <> "" -> env_complete h ->
  validateEnvironment (getEnvironment h) = None.
Proof.
  intros Hc (Hid & Hns & Hif). unfold validateEnvironment.
  apply String.eqb_neq in Hc, Hid, Hns, Hif. rewrite Hc, Hid, Hns, Hif.
  destruct (negb _); reflexivity.
Qed.

Lemma sendError_exit_ok (h : Host) code msg details version s :
  stdout_ok h = true ->
  bind (sendError h code msg details version) (fun _ => @exit unit 1) s
  = (Exit 1, wrote s (error_document code msg details version)).
Proof.
  intros Hok. unfold sendError, Encode, bind, ret, exit. rewrite Hok.
  reflexivity.
Qed.

(** X16.  A command other than VERSION, ADD, DEL and CHECK, given with a
    complete environment and a configuration that decodes, is answered by
    one error document of code 4, "Unknown command", naming the command,
    and exit status 1; no netlink call is made and no file touched. *)
Theorem main_unknown_command (h : Host) s config :
  Command (getEnvironment h) <> "" ->
  Command (getEnvironment h) <> "VERSION" ->
  Command (getEnvironment h) <> "ADD" ->
  Command (getEnvironment h) <> "DEL" ->
  Command (getEnvironment h) <> "CHECK" ->
  env_complete h ->
  parseConfig h = Some config ->
  stdout_ok h = true ->
  main h s
  = (Exit 1,
     wrote s (error_document 4 "Unknown command"
                (NotSupported (Command (getEnvironment h)))
                (CNIVersion config))).
Proof.
  intros H0 Hv Ha Hd Hc Henv Hcfg Hok. unfold main. cbv zeta.
  rewrite (validate_complete h H0 Henv), Hcfg.
  apply String.eqb_neq in Hv, Ha, Hd, Hc. rewrite Hv, Ha, Hd, Hc.
  apply sendError_exit_ok, Hok.
Qed.

(** The command GC of the newer protocol versions. *)
Lemma main_unknown_command_witness :
  main (host_for "GC" "abcdef123" (Some config_readme)) start
  = (Exit 1,
     wrote start (error_document 4 "Unknown command" (NotSupported "GC")
                    "1.1.0")).
Proof.
  apply (main_unknown_command (host_for "GC" "abcdef123" (Some config_readme))
           start config_readme); try discriminate; try reflexivity.
  repeat split; discriminate.
Defined.

(** X17.  When the command is unset, or is not VERSION while the
    container identifier, the namespace path or the interface name is
    unset, the invocation is answered by one error document of code 4,
    "Invalid environment variables", and exit status 1, before standard
    input is read; the error names the command exactly when the command is
    the variable that is unset. *)
Theorem main_invalid_environment (h : Host) s :
  env_refused h ->
  stdout_ok h = true ->
  exists err,
    main h s
    = (Exit 1,
       wrote s (error_document 4 "Invalid environment variables"
                  (OfEnv err) "")) /\
    (err = CommandNotSet <-> Command (getEnvironment h) = "").
Proof.
  intros Href Hok. unfold main. cbv zeta.
  assert (Hval : exists err,
            validateEnvironment (getEnvironment h) = Some err /\
            (err = CommandNotSet <-> Command (getEnvironment h) = "")).
  { unfold validateEnvironment.
    destruct (String.eqb (Command (getEnvironment h)) "") eqn:Ec.
    - apply String.eqb_eq in Ec. exists CommandNotSet. tauto.
    - apply String.eqb_neq in Ec.
      destruct Href as [Hc|(Hv & Hmiss)]; [contradiction|].
      apply String.eqb_neq in Hv. rewrite Hv. cbn [negb].
      destruct (String.eqb (ContainerID (getEnvironment h)) "") eqn:Eid.
      { exists ContainerIDNotSet. split; [reflexivity|].
        split; [discriminate|contradiction]. }
      destruct (String.eqb (NetNS (getEnvironment h)) "") eqn:Ens.
      { exists NetNSNotSet. split; [reflexivity|].
        split; [discriminate|contradiction]. }
      destruct (String.eqb (IfName (getEnvironment h)) "") eqn:Eif.
      { exists IfNameNotSet. split; [reflexivity|].
        split; [discriminate|contradiction]. }
      apply String.eqb_neq in Eid, Ens, Eif. tauto. }
  destruct Hval as (err & -> & Herr). exists err. split; [|exact Herr].
  apply sendError_exit_ok, Hok.
Qed.

(** ADD with nothing set but the command. *)
Lemma main_invalid_environment_witness :
  exists err,
    main (host_command_only "ADD") start
    = (Exit 1,
       wrote start (error_document 4 "Invalid environment variables"
                      (OfEnv err) "")) /\
    (err = CommandNotSet <->
     Command (getEnvironment (host_command_only "ADD")) = "").
Proof.
  apply (main_invalid_environment (host_command_only "ADD") start).
  - right. split; [discriminate|]. left. reflexivity.
  - reflexivity.
Defined.

(** X18.  DEL, given a complete environment and a configuration that
    decodes, does nothing at all: the invocation returns with status 0 and
    the state it was given, having made no netlink call, released no
    address, touched no file and written no document. *)
Theorem main_DEL_does_nothing (h : Host) s config :
  Command (getEnvironment h) = "DEL" ->
  env_complete h ->
  parseConfig h = Some config ->
  main h s = (Done tt, s).
Proof.
  intros Hcmd Henv Hcfg. unfold main. cbv zeta.
  rewrite (validate_complete h); [|rewrite Hcmd; discriminate|exact Henv].
  rewrite Hcmd, Hcfg. reflexivity.
Qed.

Lemma main_DEL_does_nothing_witness :
  main (host_for "DEL" "abcdef123" (Some config_slash8)) start
  = (Done tt, start).
Proof.
  apply (main_DEL_does_nothing (host_for "DEL" "abcdef123" (Some config_slash8))
           start config_slash8); try reflexivity.
  repeat split; discriminate.
Defined.

(** X19.  CHECK, given a complete environment and a configuration that
    decodes, inspects nothing: it makes no netlink call and reads no file,
    and answers with a fixed result (address 10.0.0.10/24, gateway
    10.0.0.1, one interface with a fixed hardware address) in which only
    the protocol version, the interface name and the namespace come from
    the invocation. *)
Theorem main_CHECK_fixed_result (h : Host) s config :
  Command (getEnvironment h) = "CHECK" ->
  env_complete h ->
  parseConfig h = Some config ->
  stdout_ok h = true ->
  main h s
  = (Done tt,
     wrote s
       (OutResult
          {| res_CNIVersion := CNIVersion config;
             Interfaces :=
               [ {| if_Name := IfName (getEnvironment h);
                    if_Mac := "00:11:22:33:44:55";
                    if_Sandbox := NetNS (getEnvironment h) |} ];
             IPs := [ {| ip_Interface := 0; ip_Address := "10.0.0.10/24";
                         ip_Gateway := "10.0.0.1" |} ];
             res_DNS := None |})).
Proof.
  intros Hcmd Henv Hcfg Hok. unfold main. cbv zeta.
  rewrite (validate_complete h); [|rewrite Hcmd; discriminate|exact Henv].
  rewrite Hcmd, Hcfg. cbn [String.eqb Ascii.eqb Bool.eqb andb].
  unfold cmdCheck, Encode, bind, ret. rewrite Hok. reflexivity.
Qed.

(** CHECK on the network 10.0.0.0/8 reports 10.0.0.10/24. *)
Lemma main_CHECK_fixed_result_witness :
  exists r,
    main (host_for "CHECK" "abcdef123" (Some config_slash8)) start
    = (Done tt, wrote start (OutResult r)) /\
    IPs r = [ {| ip_Interface := 0; ip_Address := "10.0.0.10/24";
                 ip_Gateway := "10.0.0.1" |} ].
Proof.
  eexists. split.
  - apply (main_CHECK_fixed_result
             (host_for "CHECK" "abcdef123" (Some config_slash8))
             start config_slash8); try reflexivity.
    repeat split; discriminate.
  - reflexivity.
Defined.

(** X20.  When standard input does not decode, every command but VERSION
    (known or not), given a complete environment, is answered by one error
    document of code 7, "Invalid network configuration", and exit status
    1. *)
Theorem main_bad_config (h : Host) s :
  Command (getEnvironment h) <> "" ->
  Command (getEnvironment h) <> "VERSION" ->
  env_complete h ->
  stdin h = None ->
  stdout_ok h = true ->
  main h s
  = (Exit 1,
     wrote s (error_document 7 "Invalid network configuration" OfConfig "")).
Proof.
  intros H0 Hv Henv Hin Hok. unfold main. cbv zeta.
  rewrite (validate_complete h H0 Henv).
  apply String.eqb_neq in Hv. rewrite Hv.
  unfold parseConfig. rewrite Hin. apply sendError_exit_ok, Hok.
Qed.

Lemma main_bad_config_witness :
  main (host_for "ADD" "abcdef123" None) start
  = (Exit 1,
     wrote start
       (error_document 7 "Invalid network configuration" OfConfig "")).
Proof.
  apply (main_bad_config (host_for "ADD" "abcdef123" None) start);
    try discriminate; try reflexivity.
  repeat split; discriminate.
Defined.

(** X21.  A container identifier shorter than five bytes passes
    [validateEnvironment] but makes [cmdAdd] panic on [containerID[:5]]:
    once the pool is built and the bridge found, the run ends there, the
    bridge lookup being its only netlink call. *)
Theorem cmdAdd_short_container_id (h : Host) config env s pool bridge :
  pkg.NewIpPool (fs s) (Subnet config) (Gateway config) (Path env) = Done pool ->
  link_by_name h (trace s) (Bridge config) = Ok bridge ->
  (0 < String.length (ContainerID env) < 5)%nat ->
  (Command env <> "" -> NetNS env <> "" -> IfName env <> "" ->
   validateEnvironment env = None) /\
  fst (cmdAdd h config env s) = Panic /\
  performed h config env s = [Looked (Bridge config) (Ok bridge)].
Proof.
  intros Hpool Hlook Hlen. split.
  { intros Hc Hns Hif. unfold validateEnvironment.
    assert (Hid : ContainerID env <> "")
      by (intros E; rewrite E in Hlen; simpl in Hlen; lia).
    apply String.eqb_neq in Hc, Hid, Hns, Hif. rewrite Hc, Hid, Hns, Hif.
    destruct (negb _); reflexivity. }
  unfold performed, cmdAdd, strip, NewIpPool, Save, LinkByName, call, bind,
    ret, panic.
  cbn beta iota. rewrite Hpool.
  destruct (pkg.Save pool (fs s)) as [e fs'].
  cbn [fst snd trace fs stdout]. rewrite Hlook.
  assert (Hshort : (String.length (ContainerID env) <? 5)%nat = true)
    by (apply Nat.ltb_lt; lia).
  rewrite Hshort. cbn [fst snd trace fs stdout].
  rewrite drop_app_length. auto.
Qed.

(** The container identifier "abc". *)
Lemma cmdAdd_short_container_id_witness :
  validateEnvironment short_id_env = None /\
  fst (cmdAdd willing_host config_slash8 short_id_env start) = Panic /\
  performed willing_host config_slash8 short_id_env start
  = [Looked "cni0" (Ok (link_named "cni0"))].
Proof.
  destruct (cmdAdd_short_container_id willing_host config_slash8
              short_id_env start
              {| pkg.PoolName := "10.0.0.0/8"; pkg.CidrRange := "10.0.0.1/8";
                 pkg.Path := "/opt/cni/bin"; pkg.Gateway := 0;
                 pkg.TotalIps := 253; pkg.LastAllocatedIP := 0;
                 pkg.Allocation := replicate 253 0 |}
              (link_named "cni0"))
    as (Hval & Hpanic & Hcalls).
  - vm_compute. reflexivity.
  - reflexivity.
  - simpl. lia.
  - split; [|split; assumption].
    apply Hval; discriminate.
Defined.

(** X26.  Whenever the lookup of the container end fails after the pair
    was made, whatever the cause, [cmdAdd] panics: the error of the lookup
    is overwritten by the next assignment, [LinkSetNsPid] is handed the nil
    link, and the failed lookup is the last netlink event of the run. *)
Theorem cmdAdd_container_lookup_fails (h : Host) config env s pool bridge
    cause :
  pkg.NewIpPool (fs s) (Subnet config) (Gateway config) (Path env) = Done pool ->
  link_by_name h (trace s) (Bridge config) = Ok bridge ->
  (5 <= String.length (ContainerID env))%nat ->
  net_op h (trace s ++ [Looked (Bridge config) (Ok bridge)])
    (LinkAdd (veth_pair config env)) = None ->
  link_by_name h
    (trace s ++ [Looked (Bridge config) (Ok bridge);
                 Called (LinkAdd (veth_pair config env)) None])
    (IfName env) = Err cause ->
  fst (cmdAdd h config env s) = Panic /\
  performed h config env s
  = [Looked (Bridge config) (Ok bridge);
     Called (LinkAdd (veth_pair config env)) None;
     Looked (IfName env) (Err cause)].
Proof.
  intros Hpool Hlook Hlen Hadd Hend.
  unfold performed, cmdAdd, strip, NewIpPool, Save, LinkByName, call, bind,
    ret, panic.
  cbn beta iota. rewrite Hpool.
  destruct (pkg.Save pool (fs s)) as [e fs'].
  cbn [fst snd trace fs stdout]. rewrite Hlook.
  assert (Hlong : (String.length (ContainerID env) <? 5)%nat = false)
    by (apply Nat.ltb_ge; lia).
  rewrite Hlong. cbn [fst snd trace fs stdout].
  unfold veth_pair in Hadd, Hend. rewrite Hadd.
  cbn [fst snd trace fs stdout].
  rewrite <- app_assoc. cbn [app]. rewrite Hend.
  cbn [fst snd trace fs stdout].
  rewrite <- app_assoc. cbn [app]. rewrite drop_app_length. auto.
Qed.

(** A host that refuses every lookup but that of the bridge. *)
Lemma cmdAdd_container_lookup_fails_witness :
  fst (cmdAdd host_only_bridge config_slash8 add_env start) = Panic /\
  performed host_only_bridge config_slash8 add_env start
  = [Looked "cni0" (Ok (link_named "cni0"));
     Called (LinkAdd (veth_pair config_slash8 add_env)) None;
     Looked "eth0" (Err "no such device")].
Proof.
  apply (cmdAdd_container_lookup_fails host_only_bridge config_slash8
           add_env start
           {| pkg.PoolName := "10.0.0.0/8"; pkg.CidrRange := "10.0.0.1/8";
              pkg.Path := "/opt/cni/bin"; pkg.Gateway := 0;
              pkg.TotalIps := 253; pkg.LastAllocatedIP := 0;
              pkg.Allocation := replicate 253 0 |}
           (link_named "cni0") "no such device").
  - vm_compute. reflexivity.
  - reflexivity.
  - simpl. lia.
  - reflexivity.
  - reflexivity.
Defined.

(** X27.  The order of the calls in every run of [cmdAdd], on every host:
    a link is brought up only after the link found under the peer name has
    been attached with success to the link found under the bridge name;
    and when [LinkSetNsPid] refuses the move, the link it was given is the
    one found under the requested interface name, that call is the last
    one of the run, and [cmdAdd] returns the error of the move. *)
Theorem cmdAdd_attach_before_up (h : Host) config env s :
  let tr := performed h config env s in
  before tr
    (fun e => exists p b, e = Called (LinkSetMaster p b) None /\
                          In (Looked (peer_name env) (Ok p)) tr /\
                          In (Looked (Bridge config) (Ok b)) tr)
    brings_up /\
  (forall i c pid cause,
     tr !! i = Some (Called (LinkSetNsPid c pid) (Some cause)) ->
     In (Looked (IfName env) (Ok c)) tr /\ pid = PID env /\
     List.length tr = S i /\
     fst (cmdAdd h config env s)
     = Done (Some (MoveVethFailed (IfName env) (NetNS env) cause))).
Proof.
  intros tr. subst tr. unfold peer_name. split.
  - run_cmdAdd; intros idx ev Hidx HQ; each_event Hidx idx; try not_this HQ.
    all: exists 5%nat; eexists; split; [lia|]; split; [reflexivity|];
      do 2 eexists; split; [reflexivity|]; simpl; tauto.
  - run_cmdAdd; intros idx moved nspid why Hidx;
      repeat (destruct idx as [|idx]; simpl in Hidx; try discriminate Hidx).
    injection Hidx as -> -> ->. simpl. tauto.
Qed.

(** On a host where every call succeeds, the peer is brought up (call 7)
    after it was attached; on a host that refuses the move, [cmdAdd]
    returns the error of the move after four netlink events. *)
Lemma cmdAdd_attach_before_up_witness :
  (exists j e',
     (j < 7)%nat /\
     performed willing_host config_slash8 add_env start !! j = Some e' /\
     exists p b,
       e' = Called (LinkSetMaster p b) None /\
       In (Looked (peer_name add_env) (Ok p))
          (performed willing_host config_slash8 add_env start) /\
       In (Looked (Bridge config_slash8) (Ok b))
          (performed willing_host config_slash8 add_env start)) /\
  List.length (performed host_refusing_move config_slash8 add_env start)
  = 4%nat /\
  fst (cmdAdd host_refusing_move config_slash8 add_env start)
  = Done (Some (MoveVethFailed "eth0" "/var/run/netns/c1" "no such process")).
Proof.
  split.
  - destruct (cmdAdd_attach_before_up willing_host config_slash8 add_env
                start) as (Hup & _).
    apply (Hup 7%nat (Called (LinkSetUp (link_named "veth-abcde")) None)).
    + vm_compute. reflexivity.
    + exists (link_named "veth-abcde"), None. reflexivity.
  - destruct (cmdAdd_attach_before_up host_refusing_move config_slash8
                add_env start) as (_ & Hmove).
    apply (Hmove 3%nat (link_named "eth0") 0 "no such process").
    vm_compute. reflexivity.
Defined.

(** X22.  When the configured gateway holds no colon and is not CIDR
    text (a plain IPv4 address, as the README writes it), [cmdAdd] ends the
    process with status 1 inside [NewIpPool], before any netlink call and
    without touching a file or writing a document. *)
Theorem cmdAdd_gateway_not_cidr (h : Host) config env s :
  Net.no_colon (Gateway config) = true ->
  Net.ParseCIDR (Gateway config) = None ->
  cmdAdd h config env s = (Exit 1, s).
Proof.
  intros _ Hgw. unfold cmdAdd, NewIpPool, bind, pkg.NewIpPool. rewrite Hgw.
  destruct (_ || _); reflexivity.
Qed.

(** The gateway "10.0.0.1". *)
Lemma cmdAdd_gateway_not_cidr_witness :
  cmdAdd willing_host config_readme add_env start = (Exit 1, start).
Proof.
  apply (cmdAdd_gateway_not_cidr willing_host config_readme add_env start);
    reflexivity.
Defined.

(** X23.  The only thing [cmdAdd] does to the files is the [Save] of the
    pool it has just built: when that write is accepted, the pool's file
    holds an all-free pool after every ADD, whatever it held before, and
    nothing [cmdAdd] does later is written back. *)
Theorem cmdAdd_writes_fresh_pool (h : Host) config env s built :
  pkg.NewIpPool (fs s) (Subnet config) (Gateway config) (Path env) = Done built ->
  fs (snd (cmdAdd h config env s)) = snd (pkg.Save built (fs s)) /\
  (write_ok (fs s) (pkg.pool_file built) = true ->
   files (fs (snd (cmdAdd h config env s))) !! pkg.pool_file built
   = Some (JObject (pkg.Marshal built)) /\
   pkg.Allocation built = replicate (Z.to_nat (pkg.TotalIps built)) 0).
Proof.
  intros Hpool.
  assert (Hfs : fs (snd (cmdAdd h config env s)) = snd (pkg.Save built (fs s))).
  { revert Hpool. run_cmdAdd; intros [= <-];
      match goal with H : pkg.Save _ _ = _ |- _ => rewrite H end;
      reflexivity. }
  split; [exact Hfs|]. intros Hw. rewrite Hfs. unfold pkg.Save. rewrite Hw.
  cbn [snd files]. split; [apply lookup_insert_eq|].
  apply NewIpPool_Done in Hpool as (addr & n & _ & _ & ->). reflexivity.
Qed.

(** An ADD on a host whose pool file is writable. *)
Lemma cmdAdd_writes_fresh_pool_witness :
  files (fs (snd (cmdAdd willing_host config_slash8 add_env start)))
    !! "/opt/cni/bin/10.0.0.0/8.json"
  = Some (JObject (pkg.Marshal
            {| pkg.PoolName := "10.0.0.0/8"; pkg.CidrRange := "10.0.0.1/8";
               pkg.Path := "/opt/cni/bin"; pkg.Gateway := 0;
               pkg.TotalIps := 253; pkg.LastAllocatedIP := 0;
               pkg.Allocation := replicate 253 0 |})).
Proof.
  destruct (cmdAdd_writes_fresh_pool willing_host config_slash8 add_env start
              {| pkg.PoolName := "10.0.0.0/8"; pkg.CidrRange := "10.0.0.1/8";
                 pkg.Path := "/opt/cni/bin"; pkg.Gateway := 0;
                 pkg.TotalIps := 253; pkg.LastAllocatedIP := 0;
                 pkg.Allocation := replicate 253 0 |}) as [_ Hfile].
  - vm_compute. reflexivity.
  - apply Hfile. reflexivity.
Defined.

(** X24.  Every run of [cmdAdd] makes at most eight netlink calls, none
    of which assigns an address or adds a bridge link. *)
Theorem cmdAdd_calls (h : Host) config env s :
  (List.length (performed h config env s) <= 8)%nat /\
  Forall (fun e => ~ assigns_address e /\ ~ creates_bridge e)
         (performed h config env s).
Proof.
  split.
  - run_cmdAdd; simpl; lia.
  - pose proof (cmdAdd_never_assigns h config env s) as Ha.
    pose proof (cmdAdd_never_creates_bridge h config env s) as Hb.
    rewrite Forall_forall in *. intros e He. split; [apply Ha|apply Hb]; exact He.
Qed.

(** X25.  [parseConfig] fails exactly when standard input does not
    decode; a configuration it returns never has an empty bridge name or a
    zero MTU: "cni0" and 1500 stand in for them, and every other field, and
    a bridge name or MTU that was given, is as decoded. *)
Theorem parseConfig_defaults (h : Host) :
  match parseConfig h with
  | None => stdin h = None
  | Some config =>
      exists raw,
        stdin h = Some raw /\
        Bridge config <> "" /\ MTU config <> 0 /\
        Bridge config = (if String.eqb (Bridge raw) "" then "cni0"
                         else Bridge raw) /\
        MTU config = (if MTU raw =? 0 then DEFAULT_MTU else MTU raw) /\
        CNIVersion config = CNIVersion raw /\ NetName config = NetName raw /\
        Subnet config = Subnet raw /\ Gateway config = Gateway raw /\
        DNS config = DNS raw
  end.
Proof.
  unfold parseConfig. destruct (stdin h) as [raw|]; [|reflexivity].
  exists raw. cbn. split; [reflexivity|].
  split.
  { destruct (String.eqb (Bridge raw) "") eqn:E; [discriminate|].
    apply String.eqb_neq, E. }
  split.
  { destruct (MTU raw =? 0) eqn:E; [discriminate|]. apply Z.eqb_neq, E. }
  repeat split.
Qed.
